(** * Route legs of a flight plan: a model of [src/route/routemapobject.cpp]

    The translation unit resolves one leg of a route (a [RouteMapObject])
    against the navigation database, derives course and distance to the
    preceding leg and backfills the magnetic variation of user-defined and
    unresolved legs.

    Conventions of the model:
    - a C++ [float] is an IEEE-754 binary32 value ([F32.float], on the
      Standard Library's [spec_float]); [int] is [Z];
    - [QString] is [string]; the helpers of module [QStr] follow the Qt
      functions the source calls, on ASCII text;
    - functions of the external [atools] library are the fields of the class
      [Geo]; declarations of [common/maptypes.h] that the translation unit
      only uses are the fields of the class [MapTypes];
    - an access past the end of a [QList] or of the flight plan aborts the
      program: the model returns [None]. *)

From Stdlib Require Import ZArith Ascii String Floats.SpecFloat Lia.
From stdpp Require Import base option list strings pretty.

#[local] Open Scope Z_scope.

(** ** C++ [float] *)

Module F32.

Definition prec : Z := 24.
Definition emax : Z := 128.

Definition float : Type := spec_float.

(** The conversion of an [int] constant or literal to [float]. *)
Definition of_Z (z : Z) : float := binary_normalize prec emax z 0 false.

Definition zero : float := S754_zero false.
Definition add : float -> float -> float := SFadd prec emax.
Definition sub : float -> float -> float := SFsub prec emax.
Definition div : float -> float -> float := SFdiv prec emax.
Definition abs : float -> float := SFabs.

(** [a < b] and [a <= b] of C++: false as soon as one side is a NaN. *)
Definition ltb : float -> float -> bool := SFltb.
Definition leb : float -> float -> bool := SFleb.

End F32.

Abbreviation float := F32.float.

(** ** [QString] *)

Module QStr.

Definition isEmpty (s : string) : bool :=
  match s with EmptyString => true | String _ _ => false end.

(** [QChar::isSpace] on ASCII: tab, line feed, vertical tab, form feed,
    carriage return and space. *)
Definition isSpace (c : ascii) : bool :=
  let n := Z.of_N (N_of_ascii c) in
  ((9 <=? n) && (n <=? 13)) || (n =? 32).

Fixpoint dropSpaces (s : string) : string :=
  match s with
  | String c s' => if isSpace c then dropSpaces s' else s
  | EmptyString => EmptyString
  end.

(** [trimmedEnd s] removes the white space at the end of [s]. *)
Fixpoint trimmedEnd (s : string) : string :=
  match s with
  | EmptyString => EmptyString
  | String c s' =>
      match trimmedEnd s' with
      | EmptyString => if isSpace c then EmptyString else String c EmptyString
      | t => String c t
      end
  end.

(** [QString::trimmed]: white space removed from the start and the end. *)
Definition trimmed (s : string) : string := trimmedEnd (dropSpaces s).

Definition upperChar (c : ascii) : ascii :=
  let n := N_of_ascii c in
  if ((97 <=? n) && (n <=? 122))%N then ascii_of_N (n - 32) else c.

(** [QString::toUpper]. *)
Fixpoint toUpper (s : string) : string :=
  match s with
  | EmptyString => EmptyString
  | String c s' => String (upperChar c) (toUpper s')
  end.

(** [QString::replace(before, after)] for one-character strings. *)
Fixpoint replace (before after : ascii) (s : string) : string :=
  match s with
  | EmptyString => EmptyString
  | String c s' =>
      String (if Ascii.eqb c before then after else c) (replace before after s')
  end.

Definition isDigit (c : ascii) : bool :=
  let n := N_of_ascii c in ((48 <=? n) && (n <=? 57))%N.

Definition digitValue (c : ascii) : Z := Z.of_N (N_of_ascii c) - 48.

Fixpoint digitsValue (acc : Z) (s : string) : option Z :=
  match s with
  | EmptyString => Some acc
  | String c s' =>
      if isDigit c then digitsValue (10 * acc + digitValue c) s' else None
  end.

Definition INT_MAX : Z := 2147483647.

(** [QString::toInt] on an unsigned decimal numeral: 0 when the text is
    empty, is no numeral or does not fit an [int]. *)
Definition toInt (s : string) : Z :=
  if isEmpty s then 0
  else match digitsValue 0 s with
       | Some n => if n <=? INT_MAX then n else 0
       | None => 0
       end.

(** [QString::number(int)]. *)
Definition number (n : Z) : string := pretty n.

End QStr.

(** ** The pattern [PARKING_TO_NAME_AND_NUM]

    A [QRegularExpression] with the pattern [Regex.pattern], searched (not
    anchored) in the subject: the match is the leftmost one, both groups
    greedy. The two character classes are disjoint, so at a given start the
    first group is the longest run of name characters and the match succeeds
    iff a digit follows it. *)

Module Regex.

Definition pattern : string := "([A-Za-z_ ]*)([0-9]+)".

Definition isNameChar (c : ascii) : bool :=
  let n := N_of_ascii c in
  (((65 <=? n) && (n <=? 90)) || ((97 <=? n) && (n <=? 122))
   || (n =? 95) || (n =? 32))%N.

(** The longest prefix of [s] whose characters satisfy [p], and the rest. *)
Fixpoint span (p : ascii -> bool) (s : string) : string * string :=
  match s with
  | String c s' =>
      if p c then let '(a, b) := span p s' in (String c a, b)
      else (EmptyString, s)
  | EmptyString => (EmptyString, EmptyString)
  end.

(** A match that starts at the first character of [s]: the captured groups
    1 and 2. *)
Definition matchHere (s : string) : option (string * string) :=
  let '(letters, rest) := span isNameChar s in
  let '(digits, _) := span QStr.isDigit rest in
  if QStr.isEmpty digits then None else Some (letters, digits).

Fixpoint search (s : string) : option (string * string) :=
  match matchHere s with
  | Some m => Some m
  | None =>
      match s with
      | String _ s' => search s'
      | EmptyString => None
      end
  end.

(** [QRegularExpressionMatch::captured(n)]: the null string when there is
    no match. *)
Definition captured1 (m : option (string * string)) : string :=
  match m with Some (a, _) => a | None => EmptyString end.

Definition captured2 (m : option (string * string)) : string :=
  match m with Some (_, b) => b | None => EmptyString end.

End Regex.

Definition PARKING_TO_NAME_AND_NUM (name : string) : option (string * string) :=
  Regex.search name.

(** [const int MAX_WAYPOINT_DISTANCE_METER = 10000.f] *)
Definition MAX_WAYPOINT_DISTANCE_METER : Z := 10000.

(** ** The [atools] library

    [atools::geo::Pos] with its distance and bearing functions,
    [atools::geo::Line::isPoint], the unit and course helpers of
    [geo/calculations.h] and [atools::almostNotEqual]. The source only calls
    them. *)

Class Geo : Type := {
  Pos : Type;
  EMPTY_POS : Pos;
  Pos_isValid : Pos -> bool;
  (** [a.distanceSimpleTo(b)] is [distanceSimpleTo a b], and so on. *)
  distanceSimpleTo : Pos -> Pos -> float;
  distanceMeterTo : Pos -> Pos -> float;
  distanceMeterToRhumb : Pos -> Pos -> float;
  angleDegTo : Pos -> Pos -> float;
  angleDegToRhumb : Pos -> Pos -> float;
  normalizeCourse : float -> float;
  meterToNm : float -> float;
  almostNotEqual : float -> float -> bool;
  Line_isPoint : Pos -> Pos -> bool;
}.

Section Model.

Context {G : Geo}.

(** [atools::geo::Line] and [atools::geo::LineString]. *)
Record Line : Type := { getPos1 : Pos; getPos2 : Pos }.

Definition LineString : Type := list Pos.

Definition isPoint (l : Line) : bool := Line_isPoint (getPos1 l) (getPos2 l).

(** ** The flight plan ([atools::fs::pln]) *)

Inductive WaypointType : Type :=
  | UNKNOWN | AIRPORT_ENTRY | INTERSECTION | VOR_ENTRY | NDB_ENTRY | USER_ENTRY.

Record FlightplanEntry : Type := {
  getWaypointType : WaypointType;
  getWaypointId : string;
  getAirway : string;
  getIcaoRegion : string;
  getIcaoIdent : string;
  entryPosition : Pos;
}.

Definition setIcaoRegion (v : string) (e : FlightplanEntry) : FlightplanEntry :=
  {| getWaypointType := getWaypointType e; getWaypointId := getWaypointId e;
     getAirway := getAirway e; getIcaoRegion := v;
     getIcaoIdent := getIcaoIdent e; entryPosition := entryPosition e |}.

Definition setIcaoIdent (v : string) (e : FlightplanEntry) : FlightplanEntry :=
  {| getWaypointType := getWaypointType e; getWaypointId := getWaypointId e;
     getAirway := getAirway e; getIcaoRegion := getIcaoRegion e;
     getIcaoIdent := v; entryPosition := entryPosition e |}.

Definition setPosition (v : Pos) (e : FlightplanEntry) : FlightplanEntry :=
  {| getWaypointType := getWaypointType e; getWaypointId := getWaypointId e;
     getAirway := getAirway e; getIcaoRegion := getIcaoRegion e;
     getIcaoIdent := getIcaoIdent e; entryPosition := v |}.

Record Flightplan : Type := {
  getEntries : list FlightplanEntry;
  getDepartureParkingName : string;
  getDeparturePosition : Pos;
}.

Definition setDepartureParkingName (v : string) (fp : Flightplan) : Flightplan :=
  {| getEntries := getEntries fp; getDepartureParkingName := v;
     getDeparturePosition := getDeparturePosition fp |}.

Definition setEntries (es : list FlightplanEntry) (fp : Flightplan) : Flightplan :=
  {| getEntries := es; getDepartureParkingName := getDepartureParkingName fp;
     getDeparturePosition := getDeparturePosition fp |}.

(** [QList::at(i)] and [Flightplan::at(i)]: defined inside the bounds only. *)
Definition at_ {A : Type} (l : list A) (i : Z) : option A :=
  if 0 <=? i then l !! Z.to_nat i else None.

(** The assignment to the entry [i] of the flight plan. *)
Definition setEntry (i : Z) (e : FlightplanEntry) (fp : Flightplan) : Flightplan :=
  setEntries (<[Z.to_nat i := e]> (getEntries fp)) fp.

(** ** Map objects ([common/maptypes.h])

    The fields the translation unit reads. *)

(** Modelled from the spec: the header that declares [MapObjectTypes] is not
    part of the translation unit. The kinds of a leg are those of the data
    model, "one of Airport, Waypoint, VOR, NDB, ILS, RunwayEnd,
    ProcedureLeg(subtype), User, Invalid". *)
Inductive MapObjectTypes : Type :=
  | AIRPORT | WAYPOINT | VOR | NDB | ILS | RUNWAYEND
  | PROCEDURE (subtype : nat) | USER | INVALID.

#[global] Instance MapObjectTypes_eq_dec : EqDecision MapObjectTypes.
Proof. solve_decision. Defined.

Record MapAirport : Type := {
  airport_id : Z; airport_ident : string; airport_name : string;
  airport_position : Pos; airport_magvar : float;
}.

Record MapVor : Type := {
  vor_id : Z; vor_ident : string; vor_region : string; vor_name : string;
  vor_position : Pos; vor_magvar : float; vor_range : Z; vor_frequency : Z;
}.

Record MapNdb : Type := {
  ndb_id : Z; ndb_ident : string; ndb_region : string; ndb_name : string;
  ndb_position : Pos; ndb_magvar : float; ndb_range : Z; ndb_frequency : Z;
}.

Record MapWaypoint : Type := {
  waypoint_id : Z; waypoint_ident : string; waypoint_region : string;
  waypoint_position : Pos; waypoint_magvar : float;
}.

Record MapIls : Type := {
  ils_id : Z; ils_ident : string; ils_name : string; ils_position : Pos;
  ils_range : Z; ils_frequency : Z;
}.

Record MapRunwayEnd : Type := {
  runwayEnd_name : string; runwayEnd_position : Pos;
}.

Record MapParking : Type := {
  parking_id : Z; parking_name : string; parking_number : Z;
  parking_position : Pos;
}.

Record MapStart : Type := {
  start_id : Z; start_runwayName : string; start_helipadNumber : Z;
  start_position : Pos;
}.

Record MapSearchResult : Type := {
  airports : list MapAirport;
  waypoints : list MapWaypoint;
  vors : list MapVor;
  ndbs : list MapNdb;
  ilss : list MapIls;
  runwayEnds : list MapRunwayEnd;
}.

Record MapApproachLeg : Type := {
  leg_magvar : float;
  leg_mapType : MapObjectTypes;
  leg_navaids : MapSearchResult;
  leg_line : Line;
  leg_calculatedTrueCourse : float;
  leg_calculatedDistance : float;
  leg_geometry : LineString;
  leg_displayText : list string;
}.

(** What [common/maptypes.h] declares besides the fields: the [isValid]
    member of each map object, the default-constructed objects, the two
    parking-name conversions and the distance sentinel. *)
Class MapTypes : Type := {
  MapAirport_isValid : MapAirport -> bool;
  MapVor_isValid : MapVor -> bool;
  MapNdb_isValid : MapNdb -> bool;
  MapWaypoint_isValid : MapWaypoint -> bool;
  MapIls_isValid : MapIls -> bool;
  MapRunwayEnd_isValid : MapRunwayEnd -> bool;
  MapStart_isValid : MapStart -> bool;
  MapVor_default : MapVor;
  MapNdb_default : MapNdb;
  MapWaypoint_default : MapWaypoint;
  MapParking_default : MapParking;
  MapStart_default : MapStart;
  FlightplanEntry_default : FlightplanEntry;
  parkingDatabaseName : string -> string;
  parkingNameForFlightplan : MapParking -> string;
  INVALID_DISTANCE_VALUE : float;
}.

Context {MT : MapTypes}.

(** [const static atools::fs::pln::FlightplanEntry EMPTY_FLIGHTPLAN_ENTRY] *)
Definition EMPTY_FLIGHTPLAN_ENTRY : FlightplanEntry := FlightplanEntry_default.

(** The objects [findMapObject] is instantiated at: a [position] member and
    a default constructor. *)
Class Positioned (TYPE : Type) : Type := {
  position : TYPE -> Pos;
  defaultObject : TYPE;
}.

#[global] Instance MapWaypoint_Positioned : Positioned MapWaypoint :=
  {| position := waypoint_position; defaultObject := MapWaypoint_default |}.
#[global] Instance MapVor_Positioned : Positioned MapVor :=
  {| position := vor_position; defaultObject := MapVor_default |}.
#[global] Instance MapNdb_Positioned : Positioned MapNdb :=
  {| position := ndb_position; defaultObject := MapNdb_default |}.

(** ** [findMapObject]: the nearest navaid object to position [pos]

    The result is the returned object with the [found] flag. The loop runs
    over all of [waypoints] with the pair [(distance, nearest)]. *)

Definition findMapObject_step {TYPE : Type} `{Positioned TYPE} (pos : Pos)
    (st : float * TYPE) (obj : TYPE) : float * TYPE :=
  let d := distanceSimpleTo pos (position obj) in
  if F32.ltb d (fst st) then (d, obj) else st.

Definition findMapObject {TYPE : Type} `{Positioned TYPE}
    (waypoints : list TYPE) (pos : Pos) : TYPE * bool :=
  match waypoints with
  | first :: _ =>
      let nearest :=
        if (1 <? Z.of_nat (length waypoints))
        then snd (fold_left (findMapObject_step pos) waypoints
                    (INVALID_DISTANCE_VALUE, first))
        else first in
      (nearest, true)
  | [] => (defaultObject, false)
  end.

(** ** [RouteMapObject]: one leg of the route

    The data members of the class. The [flightplan] pointer of the class is
    the flight plan every function below takes or threads: all legs of a
    route point to the same one. *)
Record RouteMapObject : Type := {

  index : Z;
  type : MapObjectTypes;
  airport : MapAirport;
  parking : MapParking;
  start : MapStart;
  vor : MapVor;
  ndb : MapNdb;
  ils : MapIls;
  runwayEnd : MapRunwayEnd;
  waypoint : MapWaypoint;
  approachLeg : MapApproachLeg;
  valid : bool;
  magvar : float;
  distanceTo : float;
  distanceToRhumb : float;
  courseTo : float;
  courseRhumbTo : float;
  geometry : LineString;

}.

(** Assignments to one data member. *)

Definition set_index (v : Z) (r : RouteMapObject) : RouteMapObject :=
  Build_RouteMapObject v (type r) (airport r) (parking r) (start r) (vor r)
    (ndb r) (ils r) (runwayEnd r) (waypoint r) (approachLeg r) (valid r)
    (magvar r) (distanceTo r) (distanceToRhumb r) (courseTo r)
    (courseRhumbTo r) (geometry r).

Definition set_type (v : MapObjectTypes) (r : RouteMapObject) : RouteMapObject :=
  Build_RouteMapObject (index r) v (airport r) (parking r) (start r) (vor r)
    (ndb r) (ils r) (runwayEnd r) (waypoint r) (approachLeg r) (valid r)
    (magvar r) (distanceTo r) (distanceToRhumb r) (courseTo r)
    (courseRhumbTo r) (geometry r).

Definition set_airport (v : MapAirport) (r : RouteMapObject) : RouteMapObject :=
  Build_RouteMapObject (index r) (type r) v (parking r) (start r) (vor r)
    (ndb r) (ils r) (runwayEnd r) (waypoint r) (approachLeg r) (valid r)
    (magvar r) (distanceTo r) (distanceToRhumb r) (courseTo r)
    (courseRhumbTo r) (geometry r).

Definition set_parking (v : MapParking) (r : RouteMapObject) : RouteMapObject :=
  Build_RouteMapObject (index r) (type r) (airport r) v (start r) (vor r)
    (ndb r) (ils r) (runwayEnd r) (waypoint r) (approachLeg r) (valid r)
    (magvar r) (distanceTo r) (distanceToRhumb r) (courseTo r)
    (courseRhumbTo r) (geometry r).

Definition set_start (v : MapStart) (r : RouteMapObject) : RouteMapObject :=
  Build_RouteMapObject (index r) (type r) (airport r) (parking r) v (vor r)
    (ndb r) (ils r) (runwayEnd r) (waypoint r) (approachLeg r) (valid r)
    (magvar r) (distanceTo r) (distanceToRhumb r) (courseTo r)
    (courseRhumbTo r) (geometry r).

Definition set_vor (v : MapVor) (r : RouteMapObject) : RouteMapObject :=
  Build_RouteMapObject (index r) (type r) (airport r) (parking r) (start r) v
    (ndb r) (ils r) (runwayEnd r) (waypoint r) (approachLeg r) (valid r)
    (magvar r) (distanceTo r) (distanceToRhumb r) (courseTo r)
    (courseRhumbTo r) (geometry r).

Definition set_ndb (v : MapNdb) (r : RouteMapObject) : RouteMapObject :=
  Build_RouteMapObject (index r) (type r) (airport r) (parking r) (start r)
    (vor r) v (ils r) (runwayEnd r) (waypoint r) (approachLeg r) (valid r)
    (magvar r) (distanceTo r) (distanceToRhumb r) (courseTo r)
    (courseRhumbTo r) (geometry r).

Definition set_ils (v : MapIls) (r : RouteMapObject) : RouteMapObject :=
  Build_RouteMapObject (index r) (type r) (airport r) (parking r) (start r)
    (vor r) (ndb r) v (runwayEnd r) (waypoint r) (approachLeg r) (valid r)
    (magvar r) (distanceTo r) (distanceToRhumb r) (courseTo r)
    (courseRhumbTo r) (geometry r).

Definition set_runwayEnd (v : MapRunwayEnd) (r : RouteMapObject) : RouteMapObject :=
  Build_RouteMapObject (index r) (type r) (airport r) (parking r) (start r)
    (vor r) (ndb r) (ils r) v (waypoint r) (approachLeg r) (valid r)
    (magvar r) (distanceTo r) (distanceToRhumb r) (courseTo r)
    (courseRhumbTo r) (geometry r).

Definition set_waypoint (v : MapWaypoint) (r : RouteMapObject) : RouteMapObject :=
  Build_RouteMapObject (index r) (type r) (airport r) (parking r) (start r)
    (vor r) (ndb r) (ils r) (runwayEnd r) v (approachLeg r) (valid r)
    (magvar r) (distanceTo r) (distanceToRhumb r) (courseTo r)
    (courseRhumbTo r) (geometry r).

Definition set_approachLeg (v : MapApproachLeg) (r : RouteMapObject) : RouteMapObject :=
  Build_RouteMapObject (index r) (type r) (airport r) (parking r) (start r)
    (vor r) (ndb r) (ils r) (runwayEnd r) (waypoint r) v (valid r) (magvar r)
    (distanceTo r) (distanceToRhumb r) (courseTo r) (courseRhumbTo r)
    (geometry r).

Definition set_valid (v : bool) (r : RouteMapObject) : RouteMapObject :=
  Build_RouteMapObject (index r) (type r) (airport r) (parking r) (start r)
    (vor r) (ndb r) (ils r) (runwayEnd r) (waypoint r) (approachLeg r) v
    (magvar r) (distanceTo r) (distanceToRhumb r) (courseTo r)
    (courseRhumbTo r) (geometry r).

Definition set_magvar (v : float) (r : RouteMapObject) : RouteMapObject :=
  Build_RouteMapObject (index r) (type r) (airport r) (parking r) (start r)
    (vor r) (ndb r) (ils r) (runwayEnd r) (waypoint r) (approachLeg r)
    (valid r) v (distanceTo r) (distanceToRhumb r) (courseTo r)
    (courseRhumbTo r) (geometry r).

Definition set_distanceTo (v : float) (r : RouteMapObject) : RouteMapObject :=
  Build_RouteMapObject (index r) (type r) (airport r) (parking r) (start r)
    (vor r) (ndb r) (ils r) (runwayEnd r) (waypoint r) (approachLeg r)
    (valid r) (magvar r) v (distanceToRhumb r) (courseTo r) (courseRhumbTo r)
    (geometry r).

Definition set_distanceToRhumb (v : float) (r : RouteMapObject) : RouteMapObject :=
  Build_RouteMapObject (index r) (type r) (airport r) (parking r) (start r)
    (vor r) (ndb r) (ils r) (runwayEnd r) (waypoint r) (approachLeg r)
    (valid r) (magvar r) (distanceTo r) v (courseTo r) (courseRhumbTo r)
    (geometry r).

Definition set_courseTo (v : float) (r : RouteMapObject) : RouteMapObject :=
  Build_RouteMapObject (index r) (type r) (airport r) (parking r) (start r)
    (vor r) (ndb r) (ils r) (runwayEnd r) (waypoint r) (approachLeg r)
    (valid r) (magvar r) (distanceTo r) (distanceToRhumb r) v
    (courseRhumbTo r) (geometry r).

Definition set_courseRhumbTo (v : float) (r : RouteMapObject) : RouteMapObject :=
  Build_RouteMapObject (index r) (type r) (airport r) (parking r) (start r)
    (vor r) (ndb r) (ils r) (runwayEnd r) (waypoint r) (approachLeg r)
    (valid r) (magvar r) (distanceTo r) (distanceToRhumb r) (courseTo r) v
    (geometry r).

Definition set_geometry (v : LineString) (r : RouteMapObject) : RouteMapObject :=
  Build_RouteMapObject (index r) (type r) (airport r) (parking r) (start r)
    (vor r) (ndb r) (ils r) (runwayEnd r) (waypoint r) (approachLeg r)
    (valid r) (magvar r) (distanceTo r) (distanceToRhumb r) (courseTo r)
    (courseRhumbTo r) v.

(** Modelled from the spec: [isAnyApproach] and [isRoute] are inline members
    of the class header, which is not part of the translation unit. A leg is
    a procedure leg when its kind is a procedure kind, and a route leg
    otherwise ("a real preceding route leg"). *)
Definition isAnyApproach (r : RouteMapObject) : bool :=
  match type r with PROCEDURE _ => true | _ => false end.

Definition isRoute (r : RouteMapObject) : bool := negb (isAnyApproach r).

Definition getMagvar (r : RouteMapObject) : float := magvar r.

(** ** [curEntry] and [getPosition] *)

Definition curEntry (fp : Flightplan) (r : RouteMapObject) : option FlightplanEntry :=
  if isRoute r then at_ (getEntries fp) (index r)
  else Some EMPTY_FLIGHTPLAN_ENTRY.

Definition getPosition (fp : Flightplan) (r : RouteMapObject) : option Pos :=
  if isAnyApproach r then Some (getPos2 (leg_line (approachLeg r)))
  else if bool_decide (type r = INVALID) then
    e ← curEntry fp r;
    Some (if Pos_isValid (entryPosition e) then entryPosition e else EMPTY_POS)
  else if MapAirport_isValid (airport r) then Some (airport_position (airport r))
  else if MapVor_isValid (vor r) then Some (vor_position (vor r))
  else if MapNdb_isValid (ndb r) then Some (ndb_position (ndb r))
  else if MapWaypoint_isValid (waypoint r) then Some (waypoint_position (waypoint r))
  else if MapIls_isValid (ils r) then Some (ils_position (ils r))
  else if MapRunwayEnd_isValid (runwayEnd r) then Some (runwayEnd_position (runwayEnd r))
  else
    e ← curEntry fp r;
    Some (match getWaypointType e with
          | USER_ENTRY => entryPosition e
          | _ => EMPTY_POS
          end).

(** ** [updateMagvar] *)

Definition updateMagvar (r : RouteMapObject) : RouteMapObject :=
  if isAnyApproach r then set_magvar (leg_magvar (approachLeg r)) r
  else if MapAirport_isValid (airport r) then set_magvar (airport_magvar (airport r)) r
  else if MapVor_isValid (vor r) then set_magvar (vor_magvar (vor r)) r
  else if MapNdb_isValid (ndb r) then set_magvar (ndb_magvar (ndb r)) r
  else if MapWaypoint_isValid (waypoint r) then set_magvar (waypoint_magvar (waypoint r)) r
  else set_magvar F32.zero r.

(** ** [updateDistanceAndCourse]

    [predRouteMapObj] is [None] for the null pointer; it points to a leg
    other than the receiver. *)

(** The test [predRouteMapObj != nullptr && predRouteMapObj->isRoute() &&
    approachLeg.line.isPoint()]. *)
Definition pointAfterRouteLeg (predRouteMapObj : option RouteMapObject)
    (r : RouteMapObject) : option RouteMapObject :=
  match predRouteMapObj with
  | Some pred =>
      if isRoute pred && isPoint (leg_line (approachLeg r)) then Some pred else None
  | None => None
  end.

Definition updateDistanceAndCourse (fp : Flightplan) (entryIndex : Z)
    (predRouteMapObj : option RouteMapObject) (r0 : RouteMapObject)
    : option RouteMapObject :=
  let r := set_index entryIndex r0 in
  if isAnyApproach r then
    r' ← match pointAfterRouteLeg predRouteMapObj r with
         | Some pred =>
             prevPos ← getPosition fp pred;
             let pos1 := getPos1 (leg_line (approachLeg r)) in
             Some (set_distanceToRhumb (meterToNm (distanceMeterToRhumb pos1 prevPos))
                    (set_distanceTo (meterToNm (distanceMeterTo pos1 prevPos))
                      (set_courseRhumbTo (normalizeCourse (angleDegToRhumb prevPos pos1))
                        (set_courseTo (normalizeCourse (angleDegTo prevPos pos1)) r))))
         | None =>
             Some (set_distanceToRhumb (leg_calculatedDistance (approachLeg r))
                    (set_distanceTo (leg_calculatedDistance (approachLeg r))
                      (set_courseRhumbTo (leg_calculatedTrueCourse (approachLeg r))
                        (set_courseTo (leg_calculatedTrueCourse (approachLeg r)) r))))
         end;
    Some (set_geometry (leg_geometry (approachLeg r)) r')
  else
    match predRouteMapObj with
    | Some pred =>
        prevPos ← getPosition fp pred;
        pos ← getPosition fp r;
        Some (set_geometry [prevPos; pos]
               (set_courseRhumbTo (normalizeCourse (angleDegToRhumb prevPos pos))
                 (set_courseTo (normalizeCourse (angleDegTo prevPos pos))
                   (set_distanceToRhumb (meterToNm (distanceMeterToRhumb pos prevPos))
                     (set_distanceTo (meterToNm (distanceMeterTo pos prevPos)) r)))))
    | None =>
        (* No predecessor - this one is the first in the list *)
        pos ← getPosition fp r;
        Some (set_geometry [pos]
               (set_courseRhumbTo F32.zero
                 (set_courseTo F32.zero
                   (set_distanceToRhumb F32.zero (set_distanceTo F32.zero r)))))
    end.

(** ** [createFromAirport] *)

Definition createFromAirport (fp : Flightplan) (entryIndex : Z)
    (newAirport : MapAirport) (predRouteMapObj : option RouteMapObject)
    (r : RouteMapObject) : option RouteMapObject :=
  let r := set_airport newAirport (set_type AIRPORT (set_index entryIndex r)) in
  let r := updateMagvar r in
  r ← updateDistanceAndCourse fp entryIndex predRouteMapObj r;
  Some (set_valid true r).

(** ** [createFromApproachLeg]

    [legs] is the leg sequence of the procedure, [legs.at(i)] its [i]-th
    leg; [navaids.hasX()] holds when the list [X] of [navaids] has a first
    element. *)

Definition setFirst {A : Type} (l : list A)
    (set : A -> RouteMapObject -> RouteMapObject) (r : RouteMapObject)
    : RouteMapObject :=
  match l with x :: _ => set x r | [] => r end.

Definition createFromApproachLeg (fp : Flightplan) (entryIndex : Z)
    (legs : list MapApproachLeg) (predRouteMapObj : option RouteMapObject)
    (r : RouteMapObject) : option RouteMapObject :=
  let r := set_index entryIndex r in
  leg ← at_ legs entryIndex;
  let r := set_approachLeg leg r in
  let r := set_magvar (leg_magvar leg) r in
  let r := set_type (leg_mapType leg) r in
  let r := setFirst (waypoints (leg_navaids leg)) set_waypoint r in
  let r := setFirst (vors (leg_navaids leg)) set_vor r in
  let r := setFirst (ndbs (leg_navaids leg)) set_ndb r in
  let r := setFirst (ilss (leg_navaids leg)) set_ils r in
  let r := setFirst (runwayEnds (leg_navaids leg)) set_runwayEnd r in
  let r := updateMagvar r in
  r ← updateDistanceAndCourse fp entryIndex predRouteMapObj r;
  Some (set_valid true r).

(** ** The database ([MapQuery])

    The three queries the translation unit sends. [getMapObjectByIdent]
    fills an empty [MapSearchResult], [getParkingByNameAndNumber] an empty
    list, and [getStartByNameAndPos] overwrites the [start] member it is
    handed. Every call is recorded in the query log of the state. *)

Record MapQuery : Type := {
  getMapObjectByIdent : MapObjectTypes -> string -> string -> MapSearchResult;
  getParkingByNameAndNumber : Z -> string -> Z -> list MapParking;
  getStartByNameAndPos : MapStart -> Z -> string -> Pos -> MapStart;
}.

Inductive QueryCall : Type :=
  | QMapObjectByIdent (kind : MapObjectTypes) (ident region : string)
  | QParkingByNameAndNumber (airportId : Z) (name : string) (number : Z)
  | QStartByNameAndPos (airportId : Z) (name : string) (pos : Pos).

(** The state [createFromDatabaseByEntry] works on: the flight plan the leg
    points to, the leg itself and the queries sent so far (latest last). *)
Record State : Type := {
  flightplan : Flightplan;
  self : RouteMapObject;
  queries : list QueryCall;
}.

Definition set_flightplan (fp : Flightplan) (s : State) : State :=
  {| flightplan := fp; self := self s; queries := queries s |}.

Definition set_self (r : RouteMapObject) (s : State) : State :=
  {| flightplan := flightplan s; self := r; queries := queries s |}.

Definition logQuery (q : QueryCall) (s : State) : State :=
  {| flightplan := flightplan s; self := self s; queries := queries s ++ [q] |}.

(** The conversion of the captured letters to the database format:
    [match.captured(1).trimmed().toUpper().replace(" ", "_")]. *)
Definition parkingNameOf (name : string) : string :=
  QStr.replace " " "_"
    (QStr.toUpper (QStr.trimmed (Regex.captured1 (PARKING_TO_NAME_AND_NUM name)))).

Definition parkingNumberOf (name : string) : Z :=
  QStr.toInt (Regex.captured2 (PARKING_TO_NAME_AND_NUM name)).

(** Resolve parking if first airport: the body of
    [if(!name.isEmpty() && predRouteMapObj == nullptr)]. *)
Definition resolveDeparture (query : MapQuery) (name : string) (s : State) : State :=
  let parkingName := parkingNameOf name in
  let airportId := airport_id (airport (self s)) in
  if negb (QStr.isEmpty parkingName) then
    (* Seems to be a parking position *)
    let number := parkingNumberOf name in
    let dbName := parkingDatabaseName parkingName in
    let parkings := getParkingByNameAndNumber query airportId dbName number in
    let s := logQuery (QParkingByNameAndNumber airportId dbName number) s in
    match parkings with
    | [] => set_flightplan (setDepartureParkingName EmptyString (flightplan s)) s
    | first :: _ =>
        let s := set_self (set_parking first (self s)) s in
        (* Update flightplan with found name *)
        set_flightplan
          (setDepartureParkingName (parkingNameForFlightplan first) (flightplan s)) s
    end
  else
    (* Runway or helipad *)
    let depPos := getDeparturePosition (flightplan s) in
    let found := getStartByNameAndPos query (start (self s)) airportId name depPos in
    let s := logQuery (QStartByNameAndPos airportId name depPos) s in
    let s := set_self (set_start found (self s)) s in
    if negb (MapStart_isValid found) then
      (* Clear departure position in flight plan *)
      set_flightplan (setDepartureParkingName EmptyString (flightplan s)) s
    else if 0 <? start_helipadNumber found then
      (* Helicopter pad *)
      set_flightplan
        (setDepartureParkingName (QStr.number (start_helipadNumber found))
           (flightplan s)) s
    else
      (* Runway name *)
      set_flightplan
        (setDepartureParkingName (start_runwayName found) (flightplan s)) s.

(** [p == nullptr] *)
Definition isNull {A : Type} (p : option A) : bool :=
  match p with None => true | Some _ => false end.

(** [case atools::fs::pln::entry::AIRPORT]. The query is sent without a
    region: the empty string. *)
Definition resolveAirport (query : MapQuery) (entry : FlightplanEntry)
    (predRouteMapObj : option RouteMapObject) (s : State) : State :=
  let ident := getIcaoIdent entry in
  let mapobjectResult := getMapObjectByIdent query AIRPORT ident EmptyString in
  let s := logQuery (QMapObjectByIdent AIRPORT ident EmptyString) s in
  match airports mapobjectResult with
  | [] => s
  | first :: _ =>
      let s := set_self (set_valid true (set_airport first (set_type AIRPORT (self s)))) s in
      let name := QStr.trimmed (getDepartureParkingName (flightplan s)) in
      if negb (QStr.isEmpty name) && isNull predRouteMapObj
      then resolveDeparture query name s
      else
        (* Airport is not departure reset start and parking *)
        set_self (set_parking MapParking_default (set_start MapStart_default (self s))) s
  end.

(** [case INTERSECTION], [case VOR] and [case NDB]: the three blocks differ
    in the kind asked for, the list of the search result they read and the
    member they store the object in. [found] and [obj] are the results of
    [findMapObject]; the entry is written back only within
    [MAX_WAYPOINT_DISTANCE_METER]. *)
Definition resolveNavaid {TYPE : Type} `{Positioned TYPE}
    (kind : MapObjectTypes) (candidates : list TYPE)
    (store : TYPE -> RouteMapObject -> RouteMapObject)
    (regionOf identOf : TYPE -> string)
    (entryIndex : Z) (entry : FlightplanEntry) (s : State) : State :=
  let '(obj, found) := findMapObject candidates (entryPosition entry) in
  if found then
    let within :=
      F32.ltb (distanceMeterTo (position obj) (entryPosition entry))
              (F32.of_Z MAX_WAYPOINT_DISTANCE_METER) in
    let s := set_self (set_valid within (store obj (set_type kind (self s)))) s in
    if within then
      (* Update all fields in entry if found - otherwise leave as is *)
      let entry' :=
        setPosition (position obj)
          (setIcaoIdent (identOf obj) (setIcaoRegion (regionOf obj) entry)) in
      set_flightplan (setEntry entryIndex entry' (flightplan s)) s
    else s
  else s.

(** The region the queries are sent with: [region.clear()] when it is the
    invalid route finder region. *)
Definition queryRegion (entry : FlightplanEntry) : string :=
  if String.eqb (getIcaoRegion entry) "KK" then EmptyString
  else getIcaoRegion entry.

(** The [switch] over the waypoint type of the entry. *)
Definition resolveEntry (query : MapQuery) (entryIndex : Z)
    (entry : FlightplanEntry) (predRouteMapObj : option RouteMapObject)
    (s : State) : State :=
  let region := queryRegion entry in
  let ident := getIcaoIdent entry in
  match getWaypointType entry with
  | UNKNOWN => s
  | AIRPORT_ENTRY => resolveAirport query entry predRouteMapObj s
  | INTERSECTION =>
      (* Navaid waypoint *)
      let mapobjectResult := getMapObjectByIdent query WAYPOINT ident region in
      let s := logQuery (QMapObjectByIdent WAYPOINT ident region) s in
      resolveNavaid WAYPOINT (waypoints mapobjectResult) set_waypoint
        waypoint_region waypoint_ident entryIndex entry s
  | VOR_ENTRY =>
      let mapobjectResult := getMapObjectByIdent query VOR ident region in
      let s := logQuery (QMapObjectByIdent VOR ident region) s in
      resolveNavaid VOR (vors mapobjectResult) set_vor
        vor_region vor_ident entryIndex entry s
  | NDB_ENTRY =>
      let mapobjectResult := getMapObjectByIdent query NDB ident region in
      let s := logQuery (QMapObjectByIdent NDB ident region) s in
      resolveNavaid NDB (ndbs mapobjectResult) set_ndb
        ndb_region ndb_ident entryIndex entry s
  | USER_ENTRY =>
      let r := set_type USER (set_valid true (self s)) in
      let entry' := setIcaoRegion EmptyString (setIcaoIdent EmptyString entry) in
      set_flightplan (setEntry entryIndex entry' (flightplan s)) (set_self r s)
  end.

(** ** [createFromDatabaseByEntry] *)

Definition createFromDatabaseByEntry (query : MapQuery) (entryIndex : Z)
    (predRouteMapObj : option RouteMapObject) (s : State) : option State :=
  let s := set_self (set_index entryIndex (self s)) s in
  flightplanEntry ← at_ (getEntries (flightplan s)) (index (self s));
  let s := resolveEntry query entryIndex flightplanEntry predRouteMapObj s in
  let r := self s in
  let r := if negb (valid r) then set_type INVALID r else r in
  let r := updateMagvar r in
  r ← updateDistanceAndCourse (flightplan s) entryIndex predRouteMapObj r;
  Some (set_self r s).

(** ** [updateInvalidMagvar]

    The two loops read the magnetic variations of the route list; [magvars]
    is [routeList->at(i).getMagvar()] for every [i]. *)

Definition isSet (m : float) : bool := almostNotEqual m F32.zero.

(** [for(int i = ...; i >= 0; i--)], entered with [i = n - 1]. *)
Fixpoint scanBackward (magvars : list float) (n : nat) : option float :=
  match n with
  | O => Some F32.zero
  | S i =>
      m ← at_ magvars (Z.of_nat i);
      if isSet m then Some m else scanBackward magvars i
  end.

(** [for(int i = ...; i < routeList->size(); i++)], entered with
    [i = size - n]. *)
Fixpoint scanForward (magvars : list float) (n : nat) : option float :=
  match n with
  | O => Some F32.zero
  | S n' =>
      m ← at_ magvars (Z.of_nat (length magvars) - Z.of_nat n);
      if isSet m then Some m else scanForward magvars n'
  end.

(** Use average of previous and next or one valid value. *)
Definition averageMagvar (magvarnext magvarprev : float) : float :=
  if F32.ltb F32.zero (F32.abs magvarnext) && F32.ltb F32.zero (F32.abs magvarprev)
  then F32.div (F32.add magvarnext magvarprev) (F32.of_Z 2)
  else if F32.ltb F32.zero (F32.abs magvarnext) then magvarnext
  else if F32.ltb F32.zero (F32.abs magvarprev) then magvarprev
  else F32.zero.

Definition backfill (entryIndex : Z) (magvars : list float) : option float :=
  let size := Z.of_nat (length magvars) in
  let from := Z.min entryIndex (size - 1) in
  magvarnext ← scanBackward magvars (Z.to_nat (from + 1));
  magvarprev ← scanForward magvars (Z.to_nat (size - from));
  Some (averageMagvar magvarnext magvarprev).

(** The call on a leg that is no element of [routeList]. *)
Definition updateInvalidMagvar (entryIndex : Z) (routeList : list RouteMapObject)
    (r : RouteMapObject) : option RouteMapObject :=
  if bool_decide (type r = USER) || bool_decide (type r = INVALID) then
    let r := set_magvar F32.zero r in
    m ← backfill entryIndex (getMagvar <$> routeList);
    Some (set_magvar m r)
  else Some r.

(** The call [routeList[k].updateInvalidMagvar(entryIndex, &routeList)] on
    the element [k] of the route list itself: the loops read the list after
    the receiver has set its own magnetic variation to zero. *)
Definition updateInvalidMagvarAt (k : nat) (entryIndex : Z)
    (routeList : list RouteMapObject) : option (list RouteMapObject) :=
  r ← routeList !! k;
  if bool_decide (type r = USER) || bool_decide (type r = INVALID) then
    let r := set_magvar F32.zero r in
    let routeList := <[k := r]> routeList in
    m ← backfill entryIndex (getMagvar <$> routeList);
    Some (<[k := set_magvar m r]> routeList)
  else Some routeList.

(** ** Accessors *)

Definition getId (r : RouteMapObject) : Z :=
  if bool_decide (type r = INVALID) then -1
  else if MapWaypoint_isValid (waypoint r) then waypoint_id (waypoint r)
  else if MapVor_isValid (vor r) then vor_id (vor r)
  else if MapNdb_isValid (ndb r) then ndb_id (ndb r)
  else if MapAirport_isValid (airport r) then airport_id (airport r)
  else if MapIls_isValid (ils r) then ils_id (ils r)
  else -1.

Definition getRange (r : RouteMapObject) : Z :=
  if bool_decide (type r = INVALID) then -1
  else if MapVor_isValid (vor r) then vor_range (vor r)
  else if MapNdb_isValid (ndb r) then ndb_range (ndb r)
  else if MapIls_isValid (ils r) then ils_range (ils r)
  else -1.

Definition getCourseToMag (r : RouteMapObject) : float :=
  normalizeCourse (F32.sub (courseTo r) (magvar r)).

Definition getCourseToRhumbMag (r : RouteMapObject) : float :=
  normalizeCourse (F32.sub (courseRhumbTo r) (magvar r)).

Definition getIdent (fp : Flightplan) (r : RouteMapObject) : option string :=
  if MapAirport_isValid (airport r) then Some (airport_ident (airport r))
  else if MapVor_isValid (vor r) then Some (vor_ident (vor r))
  else if MapNdb_isValid (ndb r) then Some (ndb_ident (ndb r))
  else if MapWaypoint_isValid (waypoint r) then Some (waypoint_ident (waypoint r))
  else if MapIls_isValid (ils r) then Some (ils_ident (ils r))
  else if MapRunwayEnd_isValid (runwayEnd r)
  then Some ("RW" +:+ runwayEnd_name (runwayEnd r))
  else
    match leg_displayText (approachLeg r) with
    | first :: _ => Some first
    | [] =>
        e ← curEntry fp r;
        Some (if bool_decide (type r = INVALID) then getIcaoIdent e
              else match getWaypointType e with
                   | USER_ENTRY => getWaypointId e
                   | UNKNOWN => "Unknown Waypoint Type"
                   | _ => EmptyString
                   end)
    end.

Definition getRegion (r : RouteMapObject) : string :=
  if MapVor_isValid (vor r) then vor_region (vor r)
  else if MapNdb_isValid (ndb r) then ndb_region (ndb r)
  else if MapWaypoint_isValid (waypoint r) then waypoint_region (waypoint r)
  else EmptyString.

Definition getName (r : RouteMapObject) : string :=
  if bool_decide (type r = INVALID) then EmptyString
  else if MapAirport_isValid (airport r) then airport_name (airport r)
  else if MapVor_isValid (vor r) then vor_name (vor r)
  else if MapNdb_isValid (ndb r) then ndb_name (ndb r)
  else if MapIls_isValid (ils r) then ils_name (ils r)
  else EmptyString.

Definition getFrequency (r : RouteMapObject) : Z :=
  if bool_decide (type r = INVALID) then 0
  else if MapVor_isValid (vor r) then vor_frequency (vor r)
  else if MapNdb_isValid (ndb r) then ndb_frequency (ndb r)
  else if MapIls_isValid (ils r) then ils_frequency (ils r)
  else 0.

(** ** Notions the properties are stated with *)

(** The distance [findMapObject] compares, and the distances that are at
    most the sentinel the loop starts from (none of the two is a NaN). *)
Definition distanceOf {TYPE : Type} `{Positioned TYPE} (pos : Pos) (obj : TYPE) : float :=
  distanceSimpleTo pos (position obj).

Definition properDistance (d : float) : Prop :=
  F32.leb d INVALID_DISTANCE_VALUE = true.

(** The state of the loop of [findMapObject] after the objects [seen]: no
    object seen is nearer than [distance], and either nothing has been
    assigned yet or [nearest] is the first of the nearest objects seen. *)
Definition loopInvariant {TYPE : Type} `{Positioned TYPE} (pos : Pos)
    (first : TYPE) (seen : list TYPE) (st : float * TYPE) : Prop :=
  Forall (fun y => F32.ltb (distanceOf pos y) (fst st) = false) seen
  /\ ((fst st = INVALID_DISTANCE_VALUE /\ snd st = first)
      \/ exists l1 l2,
           seen = l1 ++ snd st :: l2 /\ fst st = distanceOf pos (snd st)
           /\ Forall (fun y => F32.ltb (fst st) (distanceOf pos y) = true) l1).

(** [valid == false] implies [kind == Invalid]. *)
Definition validOrInvalidKind (r : RouteMapObject) : Prop :=
  valid r = false -> type r = INVALID.

(** The entry of a leg lies in the flight plan; the preceding leg, when it
    is a route leg, has its entry in the flight plan. *)
Definition inPlan (fp : Flightplan) (r : RouteMapObject) : Prop :=
  0 <= index r < Z.of_nat (length (getEntries fp)).

Definition predInPlan (fp : Flightplan) (predRouteMapObj : option RouteMapObject) : Prop :=
  match predRouteMapObj with
  | Some pred => isRoute pred = true -> inPlan fp pred
  | None => True
  end.

(** The kind an entry asks for. *)
Definition requestedKind (entry : FlightplanEntry) : option MapObjectTypes :=
  match getWaypointType entry with
  | UNKNOWN => None
  | AIRPORT_ENTRY => Some AIRPORT
  | INTERSECTION => Some WAYPOINT
  | VOR_ENTRY => Some VOR
  | NDB_ENTRY => Some NDB
  | USER_ENTRY => Some USER
  end.

(** The distance in metres of the nearest candidate to the recorded
    position of a waypoint, VOR or NDB entry; [None] when the database has
    no candidate or the entry is of another type. *)
Definition chosenDistanceOf {TYPE : Type} `{Positioned TYPE}
    (candidates : list TYPE) (entry : FlightplanEntry) : option float :=
  let '(obj, found) := findMapObject candidates (entryPosition entry) in
  if found then Some (distanceMeterTo (position obj) (entryPosition entry))
  else None.

Definition chosenDistance (query : MapQuery) (entry : FlightplanEntry) : option float :=
  let result kind :=
    getMapObjectByIdent query kind (getIcaoIdent entry) (queryRegion entry) in
  match getWaypointType entry with
  | INTERSECTION => chosenDistanceOf (waypoints (result WAYPOINT)) entry
  | VOR_ENTRY => chosenDistanceOf (vors (result VOR)) entry
  | NDB_ENTRY => chosenDistanceOf (ndbs (result NDB)) entry
  | _ => None
  end.

(** The database lookup of an airport, waypoint, VOR or NDB entry returns
    no candidate. *)
Definition noCandidates (query : MapQuery) (entry : FlightplanEntry) : Prop :=
  let result kind :=
    getMapObjectByIdent query kind (getIcaoIdent entry) (queryRegion entry) in
  match getWaypointType entry with
  | AIRPORT_ENTRY =>
      airports (getMapObjectByIdent query AIRPORT (getIcaoIdent entry) EmptyString) = []
  | INTERSECTION => waypoints (result WAYPOINT) = []
  | VOR_ENTRY => vors (result VOR) = []
  | NDB_ENTRY => ndbs (result NDB) = []
  | _ => False
  end.

(** The tolerance is exceeded. *)
Definition exceedsTolerance (d : float) : Prop :=
  F32.ltb (F32.of_Z MAX_WAYPOINT_DISTANCE_METER) d = true.

(** A course in the interval [0, 360). *)
Definition inCourseRange (c : float) : bool :=
  F32.leb F32.zero c && F32.ltb c (F32.of_Z 360).

(** The condition of the second policy of the geometry derivation: the
    defining line of the procedure leg is not a point, or there is no
    preceding route leg. *)
Definition notPointAfterRouteLeg (predRouteMapObj : option RouteMapObject)
    (r : RouteMapObject) : Prop :=
  isPoint (leg_line (approachLeg r)) = false
  \/ match predRouteMapObj with
     | Some pred => isRoute pred = false
     | None => True
     end.

(** The result of a scan for the first magnetic variation that is set,
    from [from] down to 0: the value found, or [None] when the scan reaches
    the end of the list. *)
Definition firstSetBackward (magvars : list float) (from : Z)
    (res : option float) : Prop :=
  match res with
  | Some v =>
      exists j, 0 <= j <= from /\ at_ magvars j = Some v /\ isSet v = true
        /\ forall k, j < k <= from ->
             exists m, at_ magvars k = Some m /\ isSet m = false
  | None =>
      forall k, 0 <= k <= from ->
        exists m, at_ magvars k = Some m /\ isSet m = false
  end.

(** The same from [from] up to the last element. *)
Definition firstSetForward (magvars : list float) (from : Z)
    (res : option float) : Prop :=
  match res with
  | Some v =>
      exists j, from <= j < Z.of_nat (length magvars)
        /\ at_ magvars j = Some v /\ isSet v = true
        /\ forall k, from <= k < j ->
             exists m, at_ magvars k = Some m /\ isSet m = false
  | None =>
      forall k, from <= k < Z.of_nat (length magvars) ->
        exists m, at_ magvars k = Some m /\ isSet m = false
  end.

(** The value a scan leaves in [magvarnext] or [magvarprev]. *)
Definition scanValue (res : option float) : float :=
  match res with Some v => v | None => F32.zero end.

(** A magnetic variation the scans stop at is not zero. *)
Definition setIsNonZero : Prop :=
  forall m : float, isSet m = true -> F32.ltb F32.zero (F32.abs m) = true.

(** The resolution of the two scans as the specification words it: the
    arithmetic mean of two values found, the one value found, or zero. *)
Definition resolvedMagvar (backward forward : option float) : float :=
  match backward, forward with
  | Some a, Some b => F32.div (F32.add a b) (F32.of_Z 2)
  | Some a, None => a
  | None, Some b => b
  | None, None => F32.zero
  end.

(** The payloads of a leg, and the first valid one in a given order. *)
Inductive Payload : Type :=
  | PAirport | PVor | PNdb | PWaypoint | PIls | PRunwayEnd.

Definition payloadValid (r : RouteMapObject) (p : Payload) : bool :=
  match p with
  | PAirport => MapAirport_isValid (airport r)
  | PVor => MapVor_isValid (vor r)
  | PNdb => MapNdb_isValid (ndb r)
  | PWaypoint => MapWaypoint_isValid (waypoint r)
  | PIls => MapIls_isValid (ils r)
  | PRunwayEnd => MapRunwayEnd_isValid (runwayEnd r)
  end.

Definition payloadIdent (r : RouteMapObject) (p : Payload) : string :=
  match p with
  | PAirport => airport_ident (airport r)
  | PVor => vor_ident (vor r)
  | PNdb => ndb_ident (ndb r)
  | PWaypoint => waypoint_ident (waypoint r)
  | PIls => ils_ident (ils r)
  | PRunwayEnd => "RW" +:+ runwayEnd_name (runwayEnd r)
  end.

Definition payloadPosition (r : RouteMapObject) (p : Payload) : Pos :=
  match p with
  | PAirport => airport_position (airport r)
  | PVor => vor_position (vor r)
  | PNdb => ndb_position (ndb r)
  | PWaypoint => waypoint_position (waypoint r)
  | PIls => ils_position (ils r)
  | PRunwayEnd => runwayEnd_position (runwayEnd r)
  end.

(** A runway end has no numeric id. *)
Definition payloadId (r : RouteMapObject) (p : Payload) : Z :=
  match p with
  | PAirport => airport_id (airport r)
  | PVor => vor_id (vor r)
  | PNdb => ndb_id (ndb r)
  | PWaypoint => waypoint_id (waypoint r)
  | PIls => ils_id (ils r)
  | PRunwayEnd => -1
  end.

(** The fields only some payloads carry. *)
Definition payloadName (r : RouteMapObject) (p : Payload) : option string :=
  match p with
  | PAirport => Some (airport_name (airport r))
  | PVor => Some (vor_name (vor r))
  | PNdb => Some (ndb_name (ndb r))
  | PIls => Some (ils_name (ils r))
  | _ => None
  end.

Definition payloadRegion (r : RouteMapObject) (p : Payload) : option string :=
  match p with
  | PVor => Some (vor_region (vor r))
  | PNdb => Some (ndb_region (ndb r))
  | PWaypoint => Some (waypoint_region (waypoint r))
  | _ => None
  end.

Definition payloadRange (r : RouteMapObject) (p : Payload) : option Z :=
  match p with
  | PVor => Some (vor_range (vor r))
  | PNdb => Some (ndb_range (ndb r))
  | PIls => Some (ils_range (ils r))
  | _ => None
  end.

Definition payloadFrequency (r : RouteMapObject) (p : Payload) : option Z :=
  match p with
  | PVor => Some (vor_frequency (vor r))
  | PNdb => Some (ndb_frequency (ndb r))
  | PIls => Some (ils_frequency (ils r))
  | _ => None
  end.

Definition firstValid (order : list Payload) (r : RouteMapObject) : option Payload :=
  List.find (payloadValid r) order.

(** The order of the specification, and the order [getId] follows. *)
Definition specOrder : list Payload :=
  [PAirport; PVor; PNdb; PWaypoint; PIls; PRunwayEnd].

Definition getIdOrder : list Payload :=
  [PWaypoint; PVor; PNdb; PAirport; PIls].

(** The payloads that carry a name, a region, and a range and frequency,
    in the order of the specification. *)
Definition nameOrder : list Payload := [PAirport; PVor; PNdb; PIls].
Definition regionOrder : list Payload := [PVor; PNdb; PWaypoint].
Definition radioOrder : list Payload := [PVor; PNdb; PIls].

#[global] Instance Payload_eq_dec : EqDecision Payload.
Proof. solve_decision. Defined.

(** The payloads of [sub] occur in [order], in the order of [sub]. *)
Fixpoint followsOrder (order sub : list Payload) : bool :=
  match order, sub with
  | _, [] => true
  | [], _ :: _ => false
  | y :: order', x :: sub' =>
      if bool_decide (x = y) then followsOrder order' sub'
      else followsOrder order' sub
  end.

(** ** The other members of the class

    The functions of the translation unit that remain, and the notions
    used to state how the functions work together. *)

(** [setDepartureParking] and [setDepartureStart] *)
Definition setDepartureParking (departureParking : MapParking)
    (r : RouteMapObject) : RouteMapObject :=
  set_start MapStart_default (set_parking departureParking r).

Definition setDepartureStart (departureStart : MapStart)
    (r : RouteMapObject) : RouteMapObject :=
  set_parking MapParking_default (set_start departureStart r).

(** [FlightplanEntry::setWaypointId] *)
Definition setWaypointId (v : string) (e : FlightplanEntry) : FlightplanEntry :=
  {| getWaypointType := getWaypointType e; getWaypointId := v;
     getAirway := getAirway e; getIcaoRegion := getIcaoRegion e;
     getIcaoIdent := getIcaoIdent e; entryPosition := entryPosition e |}.

(** [updateUserName]: [flightplan->getEntries()[index].setWaypointId(name)],
    on the flight plan the leg points to. *)
Definition updateUserName (name : string) (fp : Flightplan)
    (r : RouteMapObject) : option Flightplan :=
  e ← at_ (getEntries fp) (index r);
  Some (setEntry (index r) (setWaypointId name e) fp).

(** [RouteMapObject::getAirway] (the airway of the entry is [getAirway]). *)
Definition legAirway (fp : Flightplan) (r : RouteMapObject) : option string :=
  if isRoute r then e ← curEntry fp r; Some (getAirway e)
  else Some EmptyString.

(** [getGeometry] *)
Definition getGeometry (r : RouteMapObject) : LineString := geometry r.

(** The payload members and the departure members of two legs agree. *)
Definition samePayloads (r r' : RouteMapObject) : Prop :=
  airport r' = airport r /\ vor r' = vor r /\ ndb r' = ndb r
  /\ waypoint r' = waypoint r /\ ils r' = ils r /\ runwayEnd r' = runwayEnd r
  /\ parking r' = parking r /\ start r' = start r
  /\ approachLeg r' = approachLeg r.



(** All characters of [s] satisfy [p]; the first character of [s] does. *)
Fixpoint allChars (p : ascii -> bool) (s : string) : bool :=
  match s with
  | EmptyString => true
  | String c s' => p c && allChars p s'
  end.

Definition startsWith (p : ascii -> bool) (s : string) : bool :=
  match s with
  | EmptyString => false
  | String c _ => p c
  end.

(** What the [switch] may change in the flight plan: the entry at
    [entryIndex], in its region, identifier and position, and the departure
    parking name, the latter for an airport entry without predecessor
    only. *)
Definition entryRewritten (entryIndex : Z) (entry : FlightplanEntry)
    (fp fp' : Flightplan) : Prop :=
  getDeparturePosition fp' = getDeparturePosition fp
  /\ exists entry',
       getEntries fp' = <[Z.to_nat entryIndex := entry']> (getEntries fp)
       /\ getWaypointType entry' = getWaypointType entry
       /\ getWaypointId entry' = getWaypointId entry
       /\ getAirway entry' = getAirway entry.

End Model.

(** The object type selects the instance of [Positioned]. *)
#[global] Hint Mode Positioned - ! : typeclass_instances.

(** ** A small world to run the model in

    Positions are metres along one line. The instances below fix the
    external functions so that the definitions above evaluate. *)

Module Demo.

(** [FLT_EPSILON], 2^-23. *)
Definition epsilon : float := S754_finite false 8388608 (-46).

(** [FLT_MAX] *)
Definition FLT_MAX : float := SFmax_float F32.prec F32.emax.

Definition metres (a b : Z) : float := F32.of_Z (Z.abs (a - b)).

Definition bearing (a b : Z) : float :=
  if a <=? b then F32.of_Z 90 else F32.of_Z 270.

Definition normalize (c : float) : float :=
  if inCourseRange c then c else F32.zero.

#[export] Instance geo : Geo := {|
  Pos := Z;
  EMPTY_POS := 0;
  Pos_isValid := fun _ => true;
  distanceSimpleTo := metres;
  distanceMeterTo := metres;
  distanceMeterToRhumb := metres;
  angleDegTo := bearing;
  angleDegToRhumb := bearing;
  normalizeCourse := normalize;
  meterToNm := fun m => F32.div m (F32.of_Z 1852);
  almostNotEqual := fun a b => F32.ltb epsilon (F32.abs (F32.sub a b));
  Line_isPoint := Z.eqb;
|}.

Definition noVor : MapVor :=
  {| vor_id := -1; vor_ident := EmptyString; vor_region := EmptyString;
     vor_name := EmptyString; vor_position := 0; vor_magvar := F32.zero;
     vor_range := 0; vor_frequency := 0 |}.

Definition noNdb : MapNdb :=
  {| ndb_id := -1; ndb_ident := EmptyString; ndb_region := EmptyString;
     ndb_name := EmptyString; ndb_position := 0; ndb_magvar := F32.zero;
     ndb_range := 0; ndb_frequency := 0 |}.

Definition noWaypoint : MapWaypoint :=
  {| waypoint_id := -1; waypoint_ident := EmptyString;
     waypoint_region := EmptyString; waypoint_position := 0;
     waypoint_magvar := F32.zero |}.

Definition noAirport : MapAirport :=
  {| airport_id := -1; airport_ident := EmptyString;
     airport_name := EmptyString; airport_position := 0;
     airport_magvar := F32.zero |}.

Definition noIls : MapIls :=
  {| ils_id := -1; ils_ident := EmptyString; ils_name := EmptyString;
     ils_position := 0; ils_range := 0; ils_frequency := 0 |}.

Definition noRunwayEnd : MapRunwayEnd :=
  {| runwayEnd_name := EmptyString; runwayEnd_position := 0 |}.

Definition noParking : MapParking :=
  {| parking_id := -1; parking_name := EmptyString; parking_number := 0;
     parking_position := 0 |}.

Definition noStart : MapStart :=
  {| start_id := -1; start_runwayName := EmptyString;
     start_helipadNumber := 0; start_position := 0 |}.

Definition noEntry : FlightplanEntry :=
  {| getWaypointType := UNKNOWN; getWaypointId := EmptyString;
     getAirway := EmptyString; getIcaoRegion := EmptyString;
     getIcaoIdent := EmptyString; entryPosition := 0 |}.

(** A map object is valid when it has a database id; a runway end when it
    has a name. *)
#[export] Instance mapTypes : MapTypes := {|
  MapAirport_isValid := fun a => 0 <=? airport_id a;
  MapVor_isValid := fun v => 0 <=? vor_id v;
  MapNdb_isValid := fun n => 0 <=? ndb_id n;
  MapWaypoint_isValid := fun w => 0 <=? waypoint_id w;
  MapIls_isValid := fun i => 0 <=? ils_id i;
  MapRunwayEnd_isValid := fun e => negb (QStr.isEmpty (runwayEnd_name e));
  MapStart_isValid := fun s => 0 <=? start_id s;
  MapVor_default := noVor;
  MapNdb_default := noNdb;
  MapWaypoint_default := noWaypoint;
  MapParking_default := noParking;
  MapStart_default := noStart;
  FlightplanEntry_default := noEntry;
  parkingDatabaseName := fun n => n;
  parkingNameForFlightplan :=
    fun p => parking_name p +:+ " " +:+ QStr.number (parking_number p);
  INVALID_DISTANCE_VALUE := FLT_MAX;
|}.

Definition noSearchResult : MapSearchResult :=
  {| airports := []; waypoints := []; vors := []; ndbs := []; ilss := [];
     runwayEnds := [] |}.

Definition noApproachLeg : MapApproachLeg :=
  {| leg_magvar := F32.zero; leg_mapType := INVALID;
     leg_navaids := noSearchResult;
     leg_line := {| getPos1 := 0; getPos2 := 0 |};
     leg_calculatedTrueCourse := F32.zero; leg_calculatedDistance := F32.zero;
     leg_geometry := []; leg_displayText := [] |}.

(** A leg as constructed: nothing resolved, not valid. *)
Definition newLeg : RouteMapObject :=
  {| index := -1; type := INVALID; airport := noAirport; parking := noParking;
     start := noStart; vor := noVor; ndb := noNdb; ils := noIls;
     runwayEnd := noRunwayEnd; waypoint := noWaypoint;
     approachLeg := noApproachLeg; valid := false; magvar := F32.zero;
     distanceTo := F32.zero; distanceToRhumb := F32.zero;
     courseTo := F32.zero; courseRhumbTo := F32.zero; geometry := [] |}.

Definition waypointAt (id : Z) (ident : string) (pos : Z) : MapWaypoint :=
  {| waypoint_id := id; waypoint_ident := ident; waypoint_region := "ED";
     waypoint_position := pos; waypoint_magvar := F32.of_Z 2 |}.

Definition airportAt (id : Z) (ident : string) (pos : Z) : MapAirport :=
  {| airport_id := id; airport_ident := ident; airport_name := ident;
     airport_position := pos; airport_magvar := F32.of_Z 3 |}.

Definition entryAt (t : WaypointType) (ident region : string) (pos : Z)
    : FlightplanEntry :=
  {| getWaypointType := t; getWaypointId := "WP1"; getAirway := "V1";
     getIcaoRegion := region; getIcaoIdent := ident; entryPosition := pos |}.

Definition planOf (es : list FlightplanEntry) (parkingName : string) : Flightplan :=
  {| getEntries := es; getDepartureParkingName := parkingName;
     getDeparturePosition := 0 |}.

(** A database that knows the waypoints [ws] and the airports [as_] under
    every identifier, one parking spot per airport and no start position. *)
Definition database (ws : list MapWaypoint) (as_ : list MapAirport) : MapQuery :=
  {| getMapObjectByIdent := fun kind _ _ =>
       {| airports := match kind with AIRPORT => as_ | _ => [] end;
          waypoints := match kind with WAYPOINT => ws | _ => [] end;
          vors := []; ndbs := []; ilss := []; runwayEnds := [] |};
     getParkingByNameAndNumber := fun airportId name number =>
       [{| parking_id := 1; parking_name := name; parking_number := number;
           parking_position := 0 |}];
     getStartByNameAndPos := fun _ _ _ _ => noStart |}.

Definition stateOf (fp : Flightplan) (r : RouteMapObject) : State :=
  {| flightplan := fp; self := r; queries := [] |}.

(** A leg with the magnetic variation [m] (in degrees) and the kind [t]. *)
Definition legWithMagvar (t : MapObjectTypes) (m : Z) : RouteMapObject :=
  set_magvar (F32.of_Z m) (set_type t newLeg).

(** Three candidates 49900, 2000 and 2000 metres from the position 100. *)
Definition candidates : list MapWaypoint :=
  [waypointAt 1 "ABC" 50000; waypointAt 2 "ABC" 2100; waypointAt 3 "ABC" (-1900)].

(** A one-entry flight plan with a waypoint entry at the position 100, and
    a database whose only waypoint of that name is 20000 metres away. *)
Definition waypointPlan : State :=
  stateOf (planOf [entryAt INTERSECTION "ABC" "KK" 100] EmptyString) newLeg.

Definition farDatabase : MapQuery := database [waypointAt 2 "ABC" 20100] [].

Definition emptyDatabase : MapQuery := database [] [].

(** A flight plan that starts at an airport, with a departure parking. *)
Definition airportPlan (parkingName : string) : State :=
  stateOf (planOf [entryAt AIRPORT_ENTRY "EDDF" EmptyString 100] parkingName) newLeg.

Definition airportDatabase : MapQuery := database [] [airportAt 7 "EDDF" 120].

Definition userPlan : State :=
  stateOf (planOf [entryAt AIRPORT_ENTRY "EDDF" EmptyString 100;
                   entryAt USER_ENTRY "X" "ED" 500] "GATE 12") newLeg.

(** A procedure leg whose precomputed true course is 400 degrees. *)
Definition procedureLeg : RouteMapObject :=
  set_approachLeg
    {| leg_magvar := F32.zero; leg_mapType := PROCEDURE 0;
       leg_navaids := noSearchResult;
       leg_line := {| getPos1 := 0; getPos2 := 10 |};
       leg_calculatedTrueCourse := F32.of_Z 400;
       leg_calculatedDistance := F32.of_Z 3;
       leg_geometry := [0; 10]; leg_displayText := [] |}
    (set_type (PROCEDURE 0) newLeg).

(** A route leg at the airport 7, and the same leg with a valid waypoint
    payload besides. *)
Definition airportLeg : RouteMapObject :=
  set_valid true (set_index 0 (set_airport (airportAt 7 "EDDF" 120)
                                 (set_type AIRPORT newLeg))).

Definition twoPayloadLeg : RouteMapObject :=
  set_waypoint (waypointAt 2 "ABC" 2100) airportLeg.

(** The route [A(var=5), B(var=0, user), C(var=9)]. *)
Definition route : list RouteMapObject :=
  [legWithMagvar AIRPORT 5; legWithMagvar USER 0; legWithMagvar AIRPORT 9].

(** A database whose only waypoint is 2000 metres from the entry of
    [waypointPlan], a flight plan with an entry of an unknown type, and the
    user leg of [userPlan]. *)
Definition nearDatabase : MapQuery := database [waypointAt 2 "ABC" 2100] [].

Definition unknownPlan : State :=
  stateOf (planOf [entryAt UNKNOWN "X" EmptyString 5] EmptyString) newLeg.

Definition userLeg : RouteMapObject := set_index 1 (set_type USER newLeg).

(** The flight plan of [waypointPlan], resolved with a leg that held a valid
    airport before. *)
Definition reusedLegPlan : State :=
  stateOf (planOf [entryAt INTERSECTION "ABC" "KK" 100] EmptyString) airportLeg.

End Demo.

(** * Properties *)

(** Case analysis on the comparisons of exponents and mantissas, and on the
    shape of the [float] values of a goal. *)
Ltac cmp_cases :=
  repeat match goal with
    | |- context [(?a ?= ?b)%Z] => destruct (Z.compare_spec a b); subst
    | H : context [(?a ?= ?b)%Z] |- _ => destruct (Z.compare_spec a b); subst
    | |- context [Pos.compare_cont Eq ?a ?b] =>
        change (Pos.compare_cont Eq a b) with (Pos.compare a b);
        destruct (Pos.compare_spec a b); subst
    | H : context [Pos.compare_cont Eq ?a ?b] |- _ =>
        change (Pos.compare_cont Eq a b) with (Pos.compare a b) in H;
        destruct (Pos.compare_spec a b); subst
    end; simpl in *; try congruence; try lia.

(** Case analysis on every [match] and [if] of the goal. *)
Ltac case_all :=
  repeat match goal with
    | |- context [match ?x with _ => _ end] => destruct x eqn:?; simpl
    end.

Ltac float_order :=
  unfold F32.ltb, F32.leb, SFltb, SFleb;
  repeat match goal with x : float |- _ => destruct x as [[]|[]| |[] ? ?] end;
  simpl; try congruence; intros; cmp_cases.


(** ** The order of [float] values

    [F32.ltb] is a strict order and, away from NaN, a total one: the
    comparison of [spec_float] is by sign, exponent and mantissa. *)

Lemma F32_ltb_irrefl (x : float) : F32.ltb x x = false.
Proof. float_order. Qed.

Lemma F32_ltb_trans (a b c : float) :
  F32.ltb a b = true -> F32.ltb b c = true -> F32.ltb a c = true.
Proof. float_order. Qed.

Lemma F32_ltb_asym (a b : float) : F32.ltb a b = true -> F32.ltb b a = false.
Proof. float_order. Qed.

(** [o < d], not [y < d] and [y] no NaN: [o < y]. *)
Lemma F32_ltb_below (o d y i : float) :
  F32.ltb o d = true -> F32.ltb y d = false -> F32.leb y i = true ->
  F32.ltb o y = true.
Proof. float_order. Qed.

(** Two values that are at most [i] and not below it are not below each
    other. *)
Lemma F32_ltb_top (y f i : float) :
  F32.leb y i = true -> F32.ltb y i = false ->
  F32.leb f i = true -> F32.ltb f i = false ->
  F32.ltb y f = false.
Proof. float_order. Qed.

Lemma F32_not_ltb_trans (y d o : float) :
  F32.ltb y d = false -> F32.ltb o d = true -> F32.ltb y o = false.
Proof.
  intros Hyd Hod. destruct (F32.ltb y o) eqn:Hyo; [|done].
  by rewrite (F32_ltb_trans _ _ _ Hyo Hod) in Hyd.
Qed.

(** ** [findMapObject] *)

Section FindMapObject.

Context {G : Geo} {MT : MapTypes} {TYPE : Type} {P : Positioned TYPE}.
Variable pos : Pos.

#[local] Abbreviation dist := (distanceOf pos).

Lemma findMapObject_step_invariant (first : TYPE) (seen : list TYPE)
    (st : float * TYPE) (obj : TYPE) :
  Forall (fun y => properDistance (dist y)) seen ->
  loopInvariant pos first seen st ->
  loopInvariant pos first (seen ++ [obj]) (findMapObject_step pos st obj).
Proof.
  intros Hproper [Hmin Hst]. unfold findMapObject_step.
  fold (dist obj). destruct (F32.ltb (dist obj) (fst st)) eqn:Hlt.
  - split; simpl.
    + apply Forall_app. split.
      * eapply Forall_impl; [exact Hmin|]. simpl. intros y Hy.
        eapply F32_not_ltb_trans; eauto.
      * repeat constructor. apply F32_ltb_irrefl.
    + right. exists seen, []. repeat split.
      rewrite Forall_forall in Hmin, Hproper. apply Forall_forall.
      intros y Hy. eapply F32_ltb_below; [exact Hlt|by apply Hmin|].
      apply Hproper, Hy.
  - split.
    + apply Forall_app. split; [done|]. by repeat constructor.
    + destruct Hst as [?|(l1 & l2 & -> & ? & ?)]; [by left|right].
      exists l1, (l2 ++ [obj]). by rewrite <- app_assoc.
Qed.

Lemma findMapObject_loop_invariant (first : TYPE) (rest seen : list TYPE)
    (st : float * TYPE) :
  Forall (fun y => properDistance (dist y)) (seen ++ rest) ->
  loopInvariant pos first seen st ->
  loopInvariant pos first (seen ++ rest) (fold_left (findMapObject_step pos) rest st).
Proof.
  revert seen st. induction rest as [|obj rest IH]; intros seen st Hproper Hinv.
  - by rewrite app_nil_r.
  - simpl. replace (seen ++ obj :: rest) with ((seen ++ [obj]) ++ rest) in *
      by (by rewrite <- app_assoc).
    apply IH; [done|]. apply findMapObject_step_invariant; [|done].
    apply Forall_app in Hproper as [Hproper _].
    by apply Forall_app in Hproper as [Hproper _].
Qed.

End FindMapObject.

(** C1. [findMapObject] on an empty list returns a default-constructed
    object with [found = false]; on a one-element list it returns that
    element, whatever its distance; on a non-empty list whose distances are
    proper distances (at most [INVALID_DISTANCE_VALUE], the value the loop
    starts from) it returns an element [nearest] of the list that no element
    is nearer to [pos] than, and every element before it is strictly
    farther: ties keep the first element met. *)
Theorem findMapObject_nearest {G : Geo} {MT : MapTypes} {TYPE : Type}
    {P : Positioned TYPE} (waypoints : list TYPE) (pos : Pos) :
  findMapObject (@nil TYPE) pos = (defaultObject, false)
  /\ (forall x : TYPE, findMapObject [x] pos = (x, true))
  /\ (waypoints <> [] ->
      Forall (fun x => properDistance (distanceOf pos x)) waypoints ->
      exists l1 nearest l2,
        waypoints = l1 ++ nearest :: l2
        /\ findMapObject waypoints pos = (nearest, true)
        /\ Forall (fun y => F32.ltb (distanceOf pos y) (distanceOf pos nearest) = false)
             waypoints
        /\ Forall (fun y => F32.ltb (distanceOf pos nearest) (distanceOf pos y) = true)
             l1).
Proof.
  split; [done|]. split; [done|].
  intros Hne Hproper. destruct waypoints as [|first rest]; [done|].
  unfold findMapObject.
  destruct (1 <? Z.of_nat (length (first :: rest))) eqn:Hsize.
  - pose proof (findMapObject_loop_invariant pos first (first :: rest) []
                  (INVALID_DISTANCE_VALUE, first) Hproper) as Hinv.
    simpl app in Hinv.
    destruct Hinv as [Hmin Hst]; [split; [constructor|by left]|].
    destruct (fold_left _ _ _) as [distance nearest]; simpl in *.
    destruct Hst as [[-> ->]|(l1 & l2 & Heq & -> & Hfirst)].
    + exists [], first, rest. repeat split; [|constructor].
      rewrite Forall_forall in Hmin, Hproper. apply Forall_forall.
      intros y Hy. eapply F32_ltb_top.
      * apply Hproper, Hy.
      * by apply Hmin.
      * apply Hproper. by left.
      * apply Hmin. by left.
    + exists l1, nearest, l2. by rewrite Heq in *.
  - apply Z.ltb_ge in Hsize. destruct rest; [|cbn [length] in Hsize; lia].
    exists [], first, []. repeat split; [|constructor].
    repeat constructor. apply F32_ltb_irrefl.
Qed.

(** ** Geometry derivation *)

Section Geometry.

Context {G : Geo} {MT : MapTypes}.

Lemma at_defined {A : Type} (l : list A) (i : Z) :
  0 <= i < Z.of_nat (length l) -> is_Some (at_ l i).
Proof.
  intros Hi. unfold at_. destruct (0 <=? i) eqn:H0; [|lia].
  apply lookup_lt_is_Some. lia.
Qed.

Lemma at_in_range {A : Type} (l : list A) (i : Z) (x : A) :
  at_ l i = Some x -> 0 <= i < Z.of_nat (length l) /\ l !! Z.to_nat i = Some x.
Proof.
  unfold at_. destruct (0 <=? i) eqn:H0; [|done]. intros Hx.
  apply lookup_lt_Some in Hx as Hlt. apply Z.leb_le in H0.
  split; [lia|done].
Qed.

Lemma updateMagvar_fields (r : RouteMapObject) :
  valid (updateMagvar r) = valid r /\ type (updateMagvar r) = type r
  /\ index (updateMagvar r) = index r
  /\ approachLeg (updateMagvar r) = approachLeg r.
Proof.
  unfold updateMagvar.
  repeat match goal with |- context [if ?b then _ else _] => destruct b end;
    done.
Qed.

(** The position of a leg is defined as soon as it is a procedure leg or
    its entry lies in the flight plan. *)
Lemma getPosition_defined (fp : Flightplan) (r : RouteMapObject) :
  (isRoute r = true -> inPlan fp r) -> is_Some (getPosition fp r).
Proof.
  intros Hin. unfold getPosition, curEntry, isRoute in *.
  destruct (isAnyApproach r); [by eexists|]. simpl in *.
  destruct (at_defined (getEntries fp) (index r) (Hin eq_refl)) as [e ->].
  simpl.
  repeat match goal with |- context [if ?b then _ else _] => destruct b end;
    by eexists.
Qed.

(** [updateDistanceAndCourse] sets the index and the derived fields and
    leaves the rest of the leg alone. *)
Lemma updateDistanceAndCourse_fields (fp : Flightplan) (entryIndex : Z)
    (pred : option RouteMapObject) (r r' : RouteMapObject) :
  updateDistanceAndCourse fp entryIndex pred r = Some r' ->
  valid r' = valid r /\ type r' = type r /\ index r' = entryIndex
  /\ magvar r' = magvar r /\ approachLeg r' = approachLeg r.
Proof.
  unfold updateDistanceAndCourse.
  destruct (isAnyApproach (set_index entryIndex r)).
  - destruct (pointAfterRouteLeg pred (set_index entryIndex r)) as [p|].
    + destruct (getPosition fp p); simpl; [|done]. by intros [= <-].
    + simpl. by intros [= <-].
  - destruct pred as [p|].
    + destruct (getPosition fp p); simpl; [|done].
      destruct (getPosition fp (set_index entryIndex r)); simpl; [|done].
      by intros [= <-].
    + destruct (getPosition fp (set_index entryIndex r)); simpl; [|done].
      by intros [= <-].
Qed.

Lemma pointAfterRouteLeg_route (pred : option RouteMapObject)
    (r p : RouteMapObject) :
  pointAfterRouteLeg pred r = Some p -> pred = Some p /\ isRoute p = true.
Proof.
  unfold pointAfterRouteLeg. destruct pred as [q|]; [|done].
  destruct (isRoute q) eqn:Hq; simpl; [|done].
  destruct (isPoint _); [|done]. by intros [= <-].
Qed.

Lemma updateDistanceAndCourse_defined (fp : Flightplan) (entryIndex : Z)
    (pred : option RouteMapObject) (r : RouteMapObject) :
  predInPlan fp pred ->
  (isRoute r = true -> 0 <= entryIndex < Z.of_nat (length (getEntries fp))) ->
  is_Some (updateDistanceAndCourse fp entryIndex pred r).
Proof.
  intros Hpred Hself. unfold updateDistanceAndCourse.
  assert (is_Some (getPosition fp (set_index entryIndex r))) as [pos Hpos].
  { apply getPosition_defined. unfold inPlan. simpl. exact Hself. }
  destruct (isAnyApproach (set_index entryIndex r)).
  - destruct (pointAfterRouteLeg pred (set_index entryIndex r)) as [p|] eqn:Hp.
    + apply pointAfterRouteLeg_route in Hp as [-> Hroute].
      destruct (getPosition_defined fp p) as [pp ->]; [by apply Hpred|].
      by eexists.
    + by eexists.
  - rewrite Hpos. destruct pred as [p|]; [|by eexists].
    destruct (getPosition_defined fp p) as [pp ->]; [by apply Hpred|].
    by eexists.
Qed.

(** C7. For a procedure leg outside the single-point case (its defining
    line is not a point, or there is no preceding route leg),
    [updateDistanceAndCourse] returns, and sets the rhumb course to the true
    course and the rhumb distance to the true distance, both the values the
    procedure definition carries, and the geometry to the geometry of the
    procedure definition. *)
Theorem procedure_leg_uses_precomputed_values (fp : Flightplan)
    (entryIndex : Z) (predRouteMapObj : option RouteMapObject)
    (r : RouteMapObject) :
  isAnyApproach r = true ->
  notPointAfterRouteLeg predRouteMapObj r ->
  exists r',
    updateDistanceAndCourse fp entryIndex predRouteMapObj r = Some r'
    /\ courseRhumbTo r' = courseTo r'
    /\ courseTo r' = leg_calculatedTrueCourse (approachLeg r)
    /\ distanceToRhumb r' = distanceTo r'
    /\ distanceTo r' = leg_calculatedDistance (approachLeg r)
    /\ geometry r' = leg_geometry (approachLeg r).
Proof.
  intros Happroach Hnot. unfold updateDistanceAndCourse.
  assert (isAnyApproach (set_index entryIndex r) = true) as -> by done.
  assert (pointAfterRouteLeg predRouteMapObj (set_index entryIndex r) = None)
    as ->.
  { unfold pointAfterRouteLeg. destruct predRouteMapObj as [p|]; [|done].
    simpl. destruct Hnot as [Hline|Hp].
    - fold (isPoint (leg_line (approachLeg r))). rewrite Hline.
      by destruct (isRoute p).
    - by rewrite Hp. }
  simpl. by eexists.
Qed.

(** C4, as amended. Provided the bearings between two positions are
    normalized into [0, 360), both course fields that
    [updateDistanceAndCourse] produces lie in [0, 360) for every leg that is
    no procedure leg (with or without a predecessor) and for every
    procedure leg in the single-point case after a route leg. For any other
    procedure leg both fields are the true course of the procedure
    definition as it stands. *)
Theorem courses_normalized_or_precomputed (fp : Flightplan) (entryIndex : Z)
    (predRouteMapObj : option RouteMapObject) (r r' : RouteMapObject) :
  (forall a b : Pos,
     inCourseRange (normalizeCourse (angleDegTo a b)) = true
     /\ inCourseRange (normalizeCourse (angleDegToRhumb a b)) = true) ->
  updateDistanceAndCourse fp entryIndex predRouteMapObj r = Some r' ->
  (isAnyApproach r = false \/ is_Some (pointAfterRouteLeg predRouteMapObj r) ->
   inCourseRange (courseTo r') = true /\ inCourseRange (courseRhumbTo r') = true)
  /\ (isAnyApproach r = true ->
      pointAfterRouteLeg predRouteMapObj r = None ->
      courseTo r' = leg_calculatedTrueCourse (approachLeg r)
      /\ courseRhumbTo r' = leg_calculatedTrueCourse (approachLeg r)).
Proof.
  intros Hnorm. unfold updateDistanceAndCourse.
  change (isAnyApproach (set_index entryIndex r)) with (isAnyApproach r).
  change (pointAfterRouteLeg predRouteMapObj (set_index entryIndex r))
    with (pointAfterRouteLeg predRouteMapObj r).
  destruct (isAnyApproach r).
  - destruct (pointAfterRouteLeg predRouteMapObj r) as [p|].
    + destruct (getPosition fp p) as [prevPos|]; simpl; [|done].
      intros [= <-]. simpl. split; [|done]. intros _. apply Hnorm.
    + simpl. intros [= <-]. simpl. split; [|done].
      intros [?|[? ?]]; done.
  - destruct predRouteMapObj as [p|].
    + destruct (getPosition fp p) as [prevPos|]; simpl; [|done].
      destruct (getPosition fp (set_index entryIndex r)); simpl; [|done].
      intros [= <-]. simpl. split; [|done]. intros _. apply Hnorm.
    + destruct (getPosition fp (set_index entryIndex r)); simpl; [|done].
      intros [= <-]. simpl. split; [|done]. done.
Qed.

End Geometry.

(** ** Creation and resolution of a leg *)

Section Creation.

Context {G : Geo} {MT : MapTypes}.

Lemma predInPlan_length (fp fp' : Flightplan) (pred : option RouteMapObject) :
  length (getEntries fp') = length (getEntries fp) ->
  predInPlan fp pred -> predInPlan fp' pred.
Proof.
  intros Hlen. unfold predInPlan, inPlan. destruct pred; [|done].
  by rewrite Hlen.
Qed.

Lemma resolveNavaid_entries {TYPE : Type} {P : Positioned TYPE}
    (kind : MapObjectTypes) (candidates : list TYPE)
    (store : TYPE -> RouteMapObject -> RouteMapObject)
    (regionOf identOf : TYPE -> string) (entryIndex : Z)
    (entry : FlightplanEntry) (s : State) :
  length (getEntries (flightplan (resolveNavaid kind candidates store
            regionOf identOf entryIndex entry s)))
  = length (getEntries (flightplan s)).
Proof.
  unfold resolveNavaid. case_all; try done. by rewrite length_insert.
Qed.

Lemma resolveDeparture_entries (query : MapQuery) (name : string) (s : State) :
  getEntries (flightplan (resolveDeparture query name s))
  = getEntries (flightplan s).
Proof. unfold resolveDeparture. by case_all. Qed.

(** The [switch] keeps the number of entries of the flight plan. *)
Lemma resolveEntry_entries (query : MapQuery) (entryIndex : Z)
    (entry : FlightplanEntry) (pred : option RouteMapObject) (s : State) :
  length (getEntries (flightplan (resolveEntry query entryIndex entry pred s)))
  = length (getEntries (flightplan s)).
Proof.
  unfold resolveEntry. destruct (getWaypointType entry);
    rewrite ?resolveNavaid_entries; try done.
  - unfold resolveAirport. case_all; try done.
    by rewrite resolveDeparture_entries.
  - simpl. by rewrite length_insert.
Qed.

(** What [createFromDatabaseByEntry] returns, in terms of the state after
    the [switch]. *)
Lemma createFromDatabaseByEntry_inv (query : MapQuery) (entryIndex : Z)
    (pred : option RouteMapObject) (s s' : State) :
  createFromDatabaseByEntry query entryIndex pred s = Some s' ->
  exists entry,
    at_ (getEntries (flightplan s)) entryIndex = Some entry
    /\ let s2 := resolveEntry query entryIndex entry pred
                   (set_self (set_index entryIndex (self s)) s) in
       flightplan s' = flightplan s2 /\ queries s' = queries s2
       /\ valid (self s') = valid (self s2)
       /\ type (self s') = (if valid (self s2) then type (self s2) else INVALID).
Proof.
  unfold createFromDatabaseByEntry. simpl.
  destruct (at_ (getEntries (flightplan s)) entryIndex) as [entry|]; [|done].
  simpl. intros Hs'. exists entry. split; [done|]. simpl. revert Hs'.
  generalize (resolveEntry query entryIndex entry pred
                (set_self (set_index entryIndex (self s)) s)).
  intros s2.
  destruct (updateDistanceAndCourse _ _ _ _) as [r'|] eqn:Hupd; [|done].
  simpl. intros [= <-]. simpl.
  apply updateDistanceAndCourse_fields in Hupd as (Hv & Ht & Hrest).
  destruct (updateMagvar_fields
              (if negb (valid (self s2)) then set_type INVALID (self s2)
               else self s2)) as (Hv' & Ht' & Hrest').
  rewrite Hv, Ht, Hv', Ht'. clear.
  by destruct (valid (self s2)) eqn:E; simpl; rewrite ?E.
Qed.

(** [createFromDatabaseByEntry] returns when the entry lies in the flight
    plan and so does the entry of the preceding route leg. *)
Lemma createFromDatabaseByEntry_defined (query : MapQuery) (entryIndex : Z)
    (pred : option RouteMapObject) (s : State) (entry : FlightplanEntry) :
  at_ (getEntries (flightplan s)) entryIndex = Some entry ->
  predInPlan (flightplan s) pred ->
  is_Some (createFromDatabaseByEntry query entryIndex pred s).
Proof.
  intros Hentry Hpred. unfold createFromDatabaseByEntry. simpl.
  rewrite Hentry. simpl. set (s2 := resolveEntry _ _ _ _ _).
  assert (length (getEntries (flightplan s2)) = length (getEntries (flightplan s)))
    as Hlen by (subst s2; by rewrite resolveEntry_entries).
  destruct (updateDistanceAndCourse_defined (flightplan s2) entryIndex pred
              (updateMagvar (if negb (valid (self s2))
                             then set_type INVALID (self s2) else self s2)))
    as [r' ->]; [| |by eexists].
  - by eapply predInPlan_length.
  - intros _. rewrite Hlen. by apply at_in_range in Hentry as [? _].
Qed.

Lemma chosenDistanceOf_found {TYPE : Type} {P : Positioned TYPE}
    (candidates : list TYPE) (entry : FlightplanEntry) (d : float) :
  chosenDistanceOf candidates entry = Some d ->
  exists obj,
    findMapObject candidates (entryPosition entry) = (obj, true)
    /\ d = distanceMeterTo (position obj) (entryPosition entry).
Proof.
  unfold chosenDistanceOf.
  destruct (findMapObject _ _) as [obj []]; [|done].
  intros [= <-]. by exists obj.
Qed.

(** Beyond the tolerance the object is stored, the leg is not valid and the
    flight plan is left as it is. *)
Lemma resolveNavaid_far {TYPE : Type} {P : Positioned TYPE}
    (kind : MapObjectTypes) (candidates : list TYPE)
    (store : TYPE -> RouteMapObject -> RouteMapObject)
    (regionOf identOf : TYPE -> string) (entryIndex : Z)
    (entry : FlightplanEntry) (s : State) (d : float) :
  chosenDistanceOf candidates entry = Some d ->
  exceedsTolerance d ->
  exists obj,
    resolveNavaid kind candidates store regionOf identOf entryIndex entry s
    = set_self (set_valid false (store obj (set_type kind (self s)))) s.
Proof.
  intros Hd Hfar. apply chosenDistanceOf_found in Hd as (obj & Hfind & ->).
  exists obj. unfold resolveNavaid. rewrite Hfind.
  by rewrite (F32_ltb_asym _ _ Hfar).
Qed.

Lemma resolveNavaid_none {TYPE : Type} {P : Positioned TYPE}
    (kind : MapObjectTypes)
    (store : TYPE -> RouteMapObject -> RouteMapObject)
    (regionOf identOf : TYPE -> string) (entryIndex : Z)
    (entry : FlightplanEntry) (s : State) :
  resolveNavaid kind [] store regionOf identOf entryIndex entry s = s.
Proof. done. Qed.

(** The state after the [switch] when the nearest candidate of a waypoint,
    VOR or NDB entry is beyond the tolerance. *)
Lemma resolveEntry_far (query : MapQuery) (entryIndex : Z)
    (entry : FlightplanEntry) (pred : option RouteMapObject) (s : State)
    (d : float) :
  chosenDistance query entry = Some d ->
  exceedsTolerance d ->
  let s2 := resolveEntry query entryIndex entry pred s in
  flightplan s2 = flightplan s /\ valid (self s2) = false.
Proof.
  intros Hd Hfar. unfold resolveEntry, chosenDistance in *.
  destruct (getWaypointType entry); try done;
    match goal with
    | |- context [resolveNavaid ?k ?c ?st ?ro ?io ?i ?e ?s0] =>
        destruct (resolveNavaid_far k c st ro io i e s0 d Hd Hfar) as [obj ->]
    end; done.
Qed.

(** The state after the [switch] when the lookup returns no candidate. *)
Lemma resolveEntry_none (query : MapQuery) (entryIndex : Z)
    (entry : FlightplanEntry) (pred : option RouteMapObject) (s : State) :
  noCandidates query entry ->
  let s2 := resolveEntry query entryIndex entry pred s in
  flightplan s2 = flightplan s /\ self s2 = self s.
Proof.
  unfold noCandidates, resolveEntry.
  destruct (getWaypointType entry); try done; intros Hnone.
  - unfold resolveAirport. by rewrite Hnone.
  - by rewrite Hnone.
  - by rewrite Hnone.
  - by rewrite Hnone.
Qed.

(** C2, as amended. When the nearest candidate of a waypoint, VOR or NDB
    entry lies beyond the tolerance of 10000 metres,
    [createFromDatabaseByEntry] returns with [valid == false] and with the
    type [INVALID] (the kind asked for is overwritten before the function
    returns), and nothing of the candidate is written back: the flight plan
    is the one before the call. *)
Theorem out_of_tolerance_is_invalid_and_not_written_back
    (query : MapQuery) (entryIndex : Z)
    (predRouteMapObj : option RouteMapObject) (s : State)
    (entry : FlightplanEntry) (d : float) :
  at_ (getEntries (flightplan s)) entryIndex = Some entry ->
  predInPlan (flightplan s) predRouteMapObj ->
  chosenDistance query entry = Some d ->
  exceedsTolerance d ->
  exists s',
    createFromDatabaseByEntry query entryIndex predRouteMapObj s = Some s'
    /\ valid (self s') = false
    /\ type (self s') = INVALID
    /\ flightplan s' = flightplan s.
Proof.
  intros Hentry Hpred Hd Hfar.
  destruct (createFromDatabaseByEntry_defined query entryIndex predRouteMapObj
              s entry Hentry Hpred) as [s' Hs'].
  exists s'. split; [done|].
  apply createFromDatabaseByEntry_inv in Hs' as (e & He & Hfp & _ & Hv & Ht).
  rewrite Hentry in He. injection He as <-.
  destruct (resolveEntry_far query entryIndex entry predRouteMapObj
              (set_self (set_index entryIndex (self s)) s) d Hd Hfar)
    as [Hfp2 Hv2].
  rewrite Hv2 in Hv, Ht. by rewrite Hfp, Hfp2.
Qed.

(** C6, as amended. When the resolution of an entry fails, because the
    lookup returns no candidate or because the best match lies beyond the
    tolerance, the flight plan, so the region, identifier and position of
    the entry, is left as it was. Beyond the tolerance the leg ends with the
    kind [INVALID] and [valid == false]. Without candidate the function does
    not assign [valid]: the leg keeps the value it had when the function was
    entered, so a leg that was not valid, as a leg is when it has been
    constructed, ends with the kind [INVALID] and [valid == false], and a
    leg that was valid stays valid with the kind it had. *)
Theorem failed_resolution_is_invalid_and_leaves_entry
    (query : MapQuery) (entryIndex : Z)
    (predRouteMapObj : option RouteMapObject) (s : State)
    (entry : FlightplanEntry) :
  at_ (getEntries (flightplan s)) entryIndex = Some entry ->
  predInPlan (flightplan s) predRouteMapObj ->
  noCandidates query entry
  \/ (exists d, chosenDistance query entry = Some d /\ exceedsTolerance d) ->
  exists s',
    createFromDatabaseByEntry query entryIndex predRouteMapObj s = Some s'
    /\ flightplan s' = flightplan s
    /\ at_ (getEntries (flightplan s')) entryIndex = Some entry
    /\ ((exists d, chosenDistance query entry = Some d /\ exceedsTolerance d) ->
        type (self s') = INVALID /\ valid (self s') = false)
    /\ (noCandidates query entry ->
        valid (self s') = valid (self s)
        /\ type (self s')
           = (if valid (self s) then type (self s) else INVALID)).
Proof.
  intros Hentry Hpred Hfail.
  destruct (createFromDatabaseByEntry_defined query entryIndex predRouteMapObj
              s entry Hentry Hpred) as [s' Hs'].
  exists s'. split; [done|].
  apply createFromDatabaseByEntry_inv in Hs' as (e & He & Hfp & _ & Hv & Ht).
  rewrite Hentry in He. injection He as <-.
  assert (flightplan s' = flightplan s) as Hfp'.
  { destruct Hfail as [Hnone|(d & Hd & Hfar)].
    - destruct (resolveEntry_none query entryIndex entry predRouteMapObj
                  (set_self (set_index entryIndex (self s)) s) Hnone)
        as [Hfp2 _].
      by rewrite Hfp, Hfp2.
    - destruct (resolveEntry_far query entryIndex entry predRouteMapObj
                  (set_self (set_index entryIndex (self s)) s) d Hd Hfar)
        as [Hfp2 _].
      by rewrite Hfp, Hfp2. }
  split; [done|]. split; [by rewrite Hfp'|]. split.
  - intros (d & Hd & Hfar).
    destruct (resolveEntry_far query entryIndex entry predRouteMapObj
                (set_self (set_index entryIndex (self s)) s) d Hd Hfar)
      as [_ Hv2].
    rewrite Hv2 in Hv, Ht. done.
  - intros Hnone.
    destruct (resolveEntry_none query entryIndex entry predRouteMapObj
                (set_self (set_index entryIndex (self s)) s) Hnone)
      as [_ Hself].
    rewrite Hself in Hv, Ht. done.
Qed.

(** C3. [valid == false] implies that the kind of the leg is [INVALID],
    after each of [createFromAirport], [createFromApproachLeg] and
    [createFromDatabaseByEntry] has returned. *)
Theorem valid_false_implies_invalid_kind (fp : Flightplan) (entryIndex : Z)
    (newAirport : MapAirport) (legs : list MapApproachLeg) (query : MapQuery)
    (predRouteMapObj : option RouteMapObject) (r : RouteMapObject) (s : State) :
  (forall r',
     createFromAirport fp entryIndex newAirport predRouteMapObj r = Some r' ->
     validOrInvalidKind r')
  /\ (forall r',
        createFromApproachLeg fp entryIndex legs predRouteMapObj r = Some r' ->
        validOrInvalidKind r')
  /\ (forall s',
        createFromDatabaseByEntry query entryIndex predRouteMapObj s = Some s' ->
        validOrInvalidKind (self s')).
Proof.
  unfold validOrInvalidKind. repeat split.
  - intros r'. unfold createFromAirport.
    destruct (updateDistanceAndCourse _ _ _ _); simpl; [|done].
    by intros [= <-].
  - intros r'. unfold createFromApproachLeg.
    destruct (at_ legs entryIndex); simpl; [|done].
    destruct (updateDistanceAndCourse _ _ _ _); simpl; [|done].
    by intros [= <-].
  - intros s' Hs' Hinvalid.
    apply createFromDatabaseByEntry_inv in Hs' as (e & _ & _ & _ & Hv & Ht).
    rewrite Hinvalid in Hv. by rewrite <- Hv in Ht.
Qed.

(** C10. The resolution of an entry of the waypoint type User returns with
    [valid == true] and the type [USER] and sends no query; in the flight
    plan it sets the ICAO identifier and the ICAO region of the entry to the
    empty string and changes nothing else: not the other fields of the
    entry, not the other entries, not the departure fields. *)
Theorem user_entry_resolves_without_query (query : MapQuery) (entryIndex : Z)
    (predRouteMapObj : option RouteMapObject) (s : State)
    (entry : FlightplanEntry) :
  at_ (getEntries (flightplan s)) entryIndex = Some entry ->
  getWaypointType entry = USER_ENTRY ->
  predInPlan (flightplan s) predRouteMapObj ->
  exists s' entry',
    createFromDatabaseByEntry query entryIndex predRouteMapObj s = Some s'
    /\ valid (self s') = true /\ type (self s') = USER
    /\ queries s' = queries s
    /\ at_ (getEntries (flightplan s')) entryIndex = Some entry'
    /\ getIcaoIdent entry' = EmptyString /\ getIcaoRegion entry' = EmptyString
    /\ getWaypointType entry' = getWaypointType entry
    /\ getWaypointId entry' = getWaypointId entry
    /\ getAirway entry' = getAirway entry
    /\ entryPosition entry' = entryPosition entry
    /\ (forall j, j <> entryIndex ->
          at_ (getEntries (flightplan s')) j = at_ (getEntries (flightplan s)) j)
    /\ getDepartureParkingName (flightplan s') = getDepartureParkingName (flightplan s)
    /\ getDeparturePosition (flightplan s') = getDeparturePosition (flightplan s).
Proof.
  intros Hentry Huser Hpred.
  destruct (createFromDatabaseByEntry_defined query entryIndex predRouteMapObj
              s entry Hentry Hpred) as [s' Hs'].
  exists s', (setIcaoRegion EmptyString (setIcaoIdent EmptyString entry)).
  split; [done|].
  apply createFromDatabaseByEntry_inv in Hs' as (e & He & Hfp & Hq & Hv & Ht).
  rewrite Hentry in He. injection He as <-.
  unfold resolveEntry in Hfp, Hq, Hv, Ht. rewrite Huser in Hfp, Hq, Hv, Ht.
  simpl in Hfp, Hq, Hv, Ht. rewrite Hfp.
  apply at_in_range in Hentry as Hrange. destruct Hrange as [Hrange _].
  repeat split; try done.
  - unfold at_, setEntry. simpl. destruct (0 <=? entryIndex) eqn:H0; [|lia].
    apply list_lookup_insert_eq. lia.
  - intros j Hj. unfold at_, setEntry. simpl.
    destruct (0 <=? j) eqn:H0; [|done]. apply Z.leb_le in H0.
    apply list_lookup_insert_ne. lia.
Qed.

(** The query the departure position is looked up with: the parking query
    when the name has letters before its number, the start position query
    otherwise. *)
Lemma resolveDeparture_queries (query : MapQuery) (name : string) (s : State) :
  queries (resolveDeparture query name s)
  = queries s ++
    [if QStr.isEmpty (parkingNameOf name)
     then QStartByNameAndPos (airport_id (airport (self s))) name
            (getDeparturePosition (flightplan s))
     else QParkingByNameAndNumber (airport_id (airport (self s)))
            (parkingDatabaseName (parkingNameOf name)) (parkingNumberOf name)].
Proof.
  unfold resolveDeparture. destruct (QStr.isEmpty (parkingNameOf name)); simpl.
  - by case_all.
  - by case_all.
Qed.

(** The queries of the resolution of a departure airport with a parking
    name. *)
Lemma departure_airport_queries (query : MapQuery) (entryIndex : Z) (s : State)
    (entry : FlightplanEntry) (first : MapAirport) (rest : list MapAirport) :
  at_ (getEntries (flightplan s)) entryIndex = Some entry ->
  getWaypointType entry = AIRPORT_ENTRY ->
  airports (getMapObjectByIdent query AIRPORT (getIcaoIdent entry) EmptyString)
  = first :: rest ->
  QStr.isEmpty (QStr.trimmed (getDepartureParkingName (flightplan s))) = false ->
  exists s',
    createFromDatabaseByEntry query entryIndex None s = Some s'
    /\ queries s' = (queries s ++
         [QMapObjectByIdent AIRPORT (getIcaoIdent entry) EmptyString]) ++
         [let name := QStr.trimmed (getDepartureParkingName (flightplan s)) in
          if QStr.isEmpty (parkingNameOf name)
          then QStartByNameAndPos (airport_id first) name
                 (getDeparturePosition (flightplan s))
          else QParkingByNameAndNumber (airport_id first)
                 (parkingDatabaseName (parkingNameOf name)) (parkingNumberOf name)].
Proof.
  intros Hentry Hairport Hfound Hname.
  destruct (createFromDatabaseByEntry_defined query entryIndex None
              s entry Hentry I) as [s' Hs'].
  exists s'. split; [done|].
  apply createFromDatabaseByEntry_inv in Hs' as (e & He & _ & Hq & _).
  rewrite Hentry in He. injection He as <-. rewrite Hq.
  unfold resolveEntry. rewrite Hairport. unfold resolveAirport.
  rewrite Hfound. simpl. rewrite Hname. simpl.
  by rewrite resolveDeparture_queries.
Qed.

(** C8, as amended. The parking name "GATE 12" is parsed into the letters
    "GATE " and the number 12; the letters trimmed, in upper case and with
    spaces replaced by underscores are "GATE" (trimming removes the space at
    the end before the replacement, which only reaches spaces inside the
    letters, as in "GATE A 12"), and the resolution of the first airport leg
    sends the parking query with that name and the number 12. The name "04"
    has no letters, and the resolution sends the start position query with
    the name "04" instead. *)
Theorem parking_name_parsing_and_routing (query : MapQuery) (entryIndex : Z)
    (s : State) (entry : FlightplanEntry) (first : MapAirport)
    (rest : list MapAirport) :
  at_ (getEntries (flightplan s)) entryIndex = Some entry ->
  getWaypointType entry = AIRPORT_ENTRY ->
  airports (getMapObjectByIdent query AIRPORT (getIcaoIdent entry) EmptyString)
  = first :: rest ->
  (PARKING_TO_NAME_AND_NUM "GATE 12" = Some ("GATE ", "12")
   /\ parkingNameOf "GATE 12" = "GATE" /\ parkingNumberOf "GATE 12" = 12
   /\ parkingNameOf "GATE A 12" = "GATE_A"
   /\ parkingNameOf "04" = EmptyString)
  /\ (QStr.trimmed (getDepartureParkingName (flightplan s)) = "GATE 12" ->
      exists s',
        createFromDatabaseByEntry query entryIndex None s = Some s'
        /\ queries s' = queries s ++
             [QMapObjectByIdent AIRPORT (getIcaoIdent entry) EmptyString;
              QParkingByNameAndNumber (airport_id first)
                (parkingDatabaseName "GATE") 12])
  /\ (QStr.trimmed (getDepartureParkingName (flightplan s)) = "04" ->
      exists s',
        createFromDatabaseByEntry query entryIndex None s = Some s'
        /\ queries s' = queries s ++
             [QMapObjectByIdent AIRPORT (getIcaoIdent entry) EmptyString;
              QStartByNameAndPos (airport_id first) "04"
                (getDeparturePosition (flightplan s))]).
Proof.
  intros Hentry Hairport Hfound. split; [by vm_compute|].
  split; intros Hname.
  - destruct (departure_airport_queries query entryIndex s entry first rest
                Hentry Hairport Hfound) as (s' & Hs' & Hq).
    { by rewrite Hname. }
    exists s'. split; [done|]. rewrite Hq, Hname, <- app_assoc. done.
  - destruct (departure_airport_queries query entryIndex s entry first rest
                Hentry Hairport Hfound) as (s' & Hs' & Hq).
    { by rewrite Hname. }
    exists s'. split; [done|]. rewrite Hq, Hname, <- app_assoc. done.
Qed.

End Creation.

(** ** Magnetic variation backfill *)

Section Backfill.

Context {G : Geo} {MT : MapTypes}.

Lemma scanBackward_spec (magvars : list float) (n : nat) :
  (n <= length magvars)%nat ->
  exists res,
    scanBackward magvars n = Some (scanValue res)
    /\ firstSetBackward magvars (Z.of_nat n - 1) res.
Proof.
  induction n as [|i IH]; intros Hn.
  - exists None. split; [done|]. simpl. intros k Hk. lia.
  - destruct (at_defined magvars (Z.of_nat i)) as [m Hm]; [lia|].
    simpl scanBackward. rewrite Hm. simpl.
    replace (Z.of_nat (S i) - 1) with (Z.of_nat i) by lia.
    destruct (isSet m) eqn:Hset.
    + exists (Some m). split; [done|]. exists (Z.of_nat i).
      repeat split; try done; try lia; intros k Hk; lia.
    + destruct IH as (res & Hscan & Hres); [lia|].
      exists res. split; [done|].
      assert (forall k, Z.of_nat i - 1 < k <= Z.of_nat i ->
                exists m', at_ magvars k = Some m' /\ isSet m' = false) as Hlast.
      { intros k Hk. assert (k = Z.of_nat i) as -> by lia. by exists m. }
      destruct res as [v|]; simpl in *.
      * destruct Hres as (j & Hj & Hat & Hv & Hbetween).
        exists j. repeat split; try done; try lia.
        intros k Hk. destruct (decide (k <= Z.of_nat i - 1)).
        -- apply Hbetween. lia.
        -- apply Hlast. lia.
      * intros k Hk. destruct (decide (k <= Z.of_nat i - 1)).
        -- apply Hres. lia.
        -- apply Hlast. lia.
Qed.

Lemma scanForward_spec (magvars : list float) (n : nat) :
  (n <= length magvars)%nat ->
  exists res,
    scanForward magvars n = Some (scanValue res)
    /\ firstSetForward magvars (Z.of_nat (length magvars) - Z.of_nat n) res.
Proof.
  induction n as [|n' IH]; intros Hn.
  - exists None. split; [done|]. simpl. intros k Hk. lia.
  - destruct (at_defined magvars (Z.of_nat (length magvars) - Z.of_nat (S n')))
      as [m Hm]; [lia|].
    simpl scanForward. rewrite Hm. simpl.
    set (from := Z.of_nat (length magvars) - Z.of_nat (S n')) in *.
    destruct (isSet m) eqn:Hset.
    + exists (Some m). split; [done|]. exists from.
      repeat split; try done; try lia; intros k Hk; lia.
    + destruct IH as (res & Hscan & Hres); [lia|].
      replace (Z.of_nat (length magvars) - Z.of_nat n') with (from + 1) in Hres
        by lia.
      exists res. split; [done|].
      assert (forall k, from <= k < from + 1 ->
                exists m', at_ magvars k = Some m' /\ isSet m' = false) as Hfirst.
      { intros k Hk. assert (k = from) as -> by lia. by exists m. }
      destruct res as [v|]; simpl in *.
      * destruct Hres as (j & Hj & Hat & Hv & Hbetween).
        exists j. repeat split; try done; try lia.
        intros k Hk. destruct (decide (from + 1 <= k)).
        -- apply Hbetween. lia.
        -- apply Hfirst. lia.
      * intros k Hk. destruct (decide (from + 1 <= k)).
        -- apply Hres. lia.
        -- apply Hfirst. lia.
Qed.

(** The average the source computes is the resolution of the two scans. *)
Lemma averageMagvar_resolved (backward forward : option float) :
  setIsNonZero ->
  (forall v, backward = Some v -> isSet v = true) ->
  (forall v, forward = Some v -> isSet v = true) ->
  averageMagvar (scanValue backward) (scanValue forward)
  = resolvedMagvar backward forward.
Proof.
  intros Hnz Hb Hf. unfold averageMagvar.
  destruct backward as [a|], forward as [b|]; simpl.
  - by rewrite (Hnz a), (Hnz b) by auto.
  - by rewrite (Hnz a) by auto.
  - by rewrite (Hnz b) by auto.
  - done.
Qed.

Lemma firstSetBackward_set (magvars : list float) (from : Z) (res : option float) :
  firstSetBackward magvars from res -> forall v, res = Some v -> isSet v = true.
Proof. intros Hres v ->. by destruct Hres as (j & _ & _ & Hv & _). Qed.

Lemma firstSetForward_set (magvars : list float) (from : Z) (res : option float) :
  firstSetForward magvars from res -> forall v, res = Some v -> isSet v = true.
Proof. intros Hres v ->. by destruct Hres as (j & _ & _ & Hv & _). Qed.

(** The two loops and the average, on a route that is not empty. *)
Lemma backfill_spec (entryIndex : Z) (magvars : list float) :
  setIsNonZero -> 0 <= entryIndex -> magvars <> [] ->
  exists backward forward,
    let from := Z.min entryIndex (Z.of_nat (length magvars) - 1) in
    backfill entryIndex magvars = Some (resolvedMagvar backward forward)
    /\ firstSetBackward magvars from backward
    /\ firstSetForward magvars from forward.
Proof.
  intros Hnz Hidx Hne. unfold backfill.
  assert (0 < length magvars)%nat by (destruct magvars; [done|simpl; lia]).
  set (from := Z.min entryIndex (Z.of_nat (length magvars) - 1)).
  assert (0 <= from <= Z.of_nat (length magvars) - 1) by lia.
  destruct (scanBackward_spec magvars (Z.to_nat (from + 1)))
    as (backward & -> & Hb); [lia|].
  destruct (scanForward_spec magvars (Z.to_nat (Z.of_nat (length magvars) - from)))
    as (forward & -> & Hf); [lia|].
  replace (Z.of_nat (Z.to_nat (from + 1)) - 1) with from in Hb by lia.
  replace (Z.of_nat (length magvars)
           - Z.of_nat (Z.to_nat (Z.of_nat (length magvars) - from)))
    with from in Hf by lia.
  exists backward, forward. simpl. split; [|done].
  rewrite averageMagvar_resolved; eauto using firstSetBackward_set, firstSetForward_set.
Qed.

(** C5. For a leg of the kind User or Invalid at the index [k] of the
    route, the backfill scans the magnetic variations of the route from [k]
    (inclusive) down to index 0 and from [k] up to the end for the first one
    that is set (not almost equal to zero; the leg itself has set its own to
    zero before the scans). The magnetic variation of the leg becomes the
    arithmetic mean when both scans find one, the one found when only one
    scan does, and zero otherwise; the other legs are untouched. The same
    holds for the call on a leg outside a route list that is not empty, from
    the index [min(entryIndex, size - 1)]. A leg of any other kind is left
    as it is. *)
Theorem magvar_backfill (k : nat) (entryIndex : Z)
    (routeList : list RouteMapObject) (r leg : RouteMapObject) :
  setIsNonZero ->
  (type r = USER \/ type r = INVALID ->
   routeList !! k = Some r ->
   exists backward forward,
     let scanned := getMagvar <$> <[k := set_magvar F32.zero r]> routeList in
     firstSetBackward scanned (Z.of_nat k) backward
     /\ firstSetForward scanned (Z.of_nat k) forward
     /\ updateInvalidMagvarAt k (Z.of_nat k) routeList
        = Some (<[k := set_magvar (resolvedMagvar backward forward) r]> routeList))
  /\ (type leg = USER \/ type leg = INVALID ->
      0 <= entryIndex -> routeList <> [] ->
      exists backward forward,
        let scanned := getMagvar <$> routeList in
        let from := Z.min entryIndex (Z.of_nat (length routeList) - 1) in
        firstSetBackward scanned from backward
        /\ firstSetForward scanned from forward
        /\ updateInvalidMagvar entryIndex routeList leg
           = Some (set_magvar (resolvedMagvar backward forward) leg))
  /\ (type r <> USER -> type r <> INVALID ->
      routeList !! k = Some r ->
      updateInvalidMagvarAt k (Z.of_nat k) routeList = Some routeList)
  /\ (type leg <> USER -> type leg <> INVALID ->
      updateInvalidMagvar entryIndex routeList leg = Some leg).
Proof.
  intros Hnz. repeat split.
  - intros Hkind Hk. unfold updateInvalidMagvarAt. rewrite Hk. simpl.
    assert (bool_decide (type r = USER) || bool_decide (type r = INVALID) = true)
      as ->.
    { destruct Hkind as [-> | ->]; done. }
    apply lookup_lt_Some in Hk as Hlt.
    set (zeroed := <[k := set_magvar F32.zero r]> routeList).
    assert (length zeroed = length routeList) as Hlen by apply length_insert.
    destruct (backfill_spec (Z.of_nat k) (getMagvar <$> zeroed) Hnz)
      as (backward & forward & Hfill & Hb & Hf); [lia| |].
    { intros Hnil. apply (f_equal length) in Hnil.
      rewrite length_fmap, Hlen in Hnil. simpl in Hnil. lia. }
    rewrite length_fmap, Hlen in Hb, Hf.
    replace (Z.min (Z.of_nat k) (Z.of_nat (length routeList) - 1))
      with (Z.of_nat k) in Hb, Hf by lia.
    exists backward, forward. simpl. repeat split; try done.
    rewrite Hfill. simpl. subst zeroed. by rewrite list_insert_insert_eq.
  - intros Hkind Hidx Hne. unfold updateInvalidMagvar.
    assert (bool_decide (type leg = USER) || bool_decide (type leg = INVALID) = true)
      as ->.
    { destruct Hkind as [-> | ->]; done. }
    destruct (backfill_spec entryIndex (getMagvar <$> routeList) Hnz Hidx)
      as (backward & forward & Hfill & Hb & Hf).
    { by destruct routeList. }
    rewrite length_fmap in Hb, Hf.
    exists backward, forward. simpl. repeat split; try done.
    by rewrite Hfill.
  - intros Hu Hi Hk. unfold updateInvalidMagvarAt. rewrite Hk. simpl.
    rewrite !bool_decide_eq_false_2 by done. done.
  - intros Hu Hi. unfold updateInvalidMagvar.
    rewrite !bool_decide_eq_false_2 by done. done.
Qed.

End Backfill.

(** ** Accessors *)

Section Accessors.

Context {G : Geo} {MT : MapTypes}.

(** C9, as amended. [getIdent] returns the identifier of the first valid
    payload in the order Airport, VOR, NDB, Waypoint, ILS, RunwayEnd, and so
    does [getPosition] with the position for a leg that is neither a
    procedure leg nor of the kind Invalid; [getRegion], and for a leg that
    is not of the kind Invalid [getName], [getRange] and [getFrequency],
    return the field of the first valid payload among those that carry it,
    in the same order. [getId] follows another order: it returns -1 for a
    leg of the kind Invalid and otherwise the id of the first valid payload
    in the order Waypoint, VOR, NDB, Airport, ILS (a runway end is not
    looked at), or -1 when none of these is valid. *)
Theorem accessor_priority_orders (fp : Flightplan) (r : RouteMapObject)
    (p : Payload) :
  (firstValid specOrder r = Some p ->
   getIdent fp r = Some (payloadIdent r p))
  /\ (firstValid specOrder r = Some p ->
      isAnyApproach r = false -> type r <> INVALID ->
      getPosition fp r = Some (payloadPosition r p))
  /\ (firstValid regionOrder r = Some p ->
      payloadRegion r p = Some (getRegion r))
  /\ (type r <> INVALID ->
      (firstValid nameOrder r = Some p -> payloadName r p = Some (getName r))
      /\ (firstValid radioOrder r = Some p ->
          payloadRange r p = Some (getRange r)
          /\ payloadFrequency r p = Some (getFrequency r)))
  /\ (followsOrder specOrder nameOrder = true
      /\ followsOrder specOrder regionOrder = true
      /\ followsOrder specOrder radioOrder = true
      /\ followsOrder specOrder getIdOrder = false)
  /\ (firstValid getIdOrder r = Some p -> type r <> INVALID ->
      getId r = payloadId r p)
  /\ (firstValid getIdOrder r = None \/ type r = INVALID -> getId r = -1).
Proof.
  unfold firstValid, specOrder, getIdOrder, nameOrder, regionOrder, radioOrder,
    getIdent, getPosition, getId, getRegion, getName, getRange, getFrequency.
  simpl. split; [|split; [|split; [|split; [|split; [|split]]]]].
  - destruct (MapAirport_isValid _); [by intros [= <-]|].
    destruct (MapVor_isValid _); [by intros [= <-]|].
    destruct (MapNdb_isValid _); [by intros [= <-]|].
    destruct (MapWaypoint_isValid _); [by intros [= <-]|].
    destruct (MapIls_isValid _); [by intros [= <-]|].
    destruct (MapRunwayEnd_isValid _); [by intros [= <-]|done].
  - intros Hp -> Hkind. rewrite bool_decide_eq_false_2 by done. revert Hp.
    destruct (MapAirport_isValid _); [by intros [= <-]|].
    destruct (MapVor_isValid _); [by intros [= <-]|].
    destruct (MapNdb_isValid _); [by intros [= <-]|].
    destruct (MapWaypoint_isValid _); [by intros [= <-]|].
    destruct (MapIls_isValid _); [by intros [= <-]|].
    destruct (MapRunwayEnd_isValid _); [by intros [= <-]|done].
  - destruct (MapVor_isValid _); [by intros [= <-]|].
    destruct (MapNdb_isValid _); [by intros [= <-]|].
    destruct (MapWaypoint_isValid _); [by intros [= <-]|done].
  - intros Hkind. rewrite bool_decide_eq_false_2 by done. split.
    + destruct (MapAirport_isValid _); [by intros [= <-]|].
      destruct (MapVor_isValid _); [by intros [= <-]|].
      destruct (MapNdb_isValid _); [by intros [= <-]|].
      destruct (MapIls_isValid _); [by intros [= <-]|done].
    + destruct (MapVor_isValid _); [by intros [= <-]|].
      destruct (MapNdb_isValid _); [by intros [= <-]|].
      destruct (MapIls_isValid _); [by intros [= <-]|done].
  - done.
  - intros Hp Hkind. rewrite bool_decide_eq_false_2 by done. revert Hp.
    destruct (MapWaypoint_isValid _); [by intros [= <-]|].
    destruct (MapVor_isValid _); [by intros [= <-]|].
    destruct (MapNdb_isValid _); [by intros [= <-]|].
    destruct (MapAirport_isValid _); [by intros [= <-]|].
    destruct (MapIls_isValid _); [by intros [= <-]|done].
  - intros [Hnone|Hkind].
    + destruct (bool_decide (type r = INVALID)); [done|]. revert Hnone.
      destruct (MapWaypoint_isValid _); [done|].
      destruct (MapVor_isValid _); [done|].
      destruct (MapNdb_isValid _); [done|].
      destruct (MapAirport_isValid _); [done|].
      by destruct (MapIls_isValid _).
    + by rewrite bool_decide_eq_true_2.
Qed.

End Accessors.

(** * The functions put together *)

(** ** [findMapObject], whatever the distances *)

Section FindMapObjectMembership.

Context {G : Geo} {MT : MapTypes} {TYPE : Type} {P : Positioned TYPE}.

Lemma findMapObject_fold_member (pos : Pos) (l : list TYPE) (st : float * TYPE) :
  snd (fold_left (findMapObject_step pos) l st) = snd st
  \/ snd (fold_left (findMapObject_step pos) l st) ∈ l.
Proof.
  revert st. induction l as [|obj l IH]; intros st; [by left|].
  simpl. destruct (IH (findMapObject_step pos st obj)) as [Heq|Hin].
  - rewrite Heq. unfold findMapObject_step.
    destruct (F32.ltb _ _); simpl; [right; by left|by left].
  - right. by right.
Qed.

(** X1. [findMapObject] sets [found] exactly when the list is not empty,
    and then returns an element of the list, whatever the distances are
    (NaN, infinite or beyond the sentinel); on the empty list it returns the
    default-constructed object. *)
Theorem findMapObject_returns_a_candidate (waypoints : list TYPE) (pos : Pos) :
  match waypoints with
  | [] => findMapObject waypoints pos = (defaultObject, false)
  | _ :: _ =>
      snd (findMapObject waypoints pos) = true
      /\ fst (findMapObject waypoints pos) ∈ waypoints
  end.
Proof.
  destruct waypoints as [|first rest]; [done|].
  unfold findMapObject. split; [done|]. cbn [fst].
  destruct (1 <? Z.of_nat (length (first :: rest))); [|by left].
  destruct (findMapObject_fold_member pos (first :: rest)
              (INVALID_DISTANCE_VALUE, first)) as [-> | Hin]; [by left|done].
Qed.

End FindMapObjectMembership.

(** ** Geometry derivation, continued *)

Section GeometryMore.

Context {G : Geo} {MT : MapTypes}.

Lemma updateMagvar_samePayloads (r : RouteMapObject) :
  samePayloads r (updateMagvar r).
Proof.
  unfold updateMagvar, samePayloads.
  repeat match goal with |- context [if ?b then _ else _] => destruct b end;
    done.
Qed.

(** The position of a leg does not depend on the fields
    [updateDistanceAndCourse] and [updateMagvar] assign, nor on [valid]. *)
Lemma getPosition_ext (fp : Flightplan) (r r' : RouteMapObject) :
  type r' = type r -> index r' = index r -> samePayloads r r' ->
  getPosition fp r' = getPosition fp r.
Proof.
  intros Ht Hi (Ha & Hv & Hn & Hw & Hils & He & _ & _ & Hl).
  unfold getPosition, curEntry, isRoute, isAnyApproach.
  by rewrite Ht, Hi, Ha, Hv, Hn, Hw, Hils, He, Hl.
Qed.

Lemma updateDistanceAndCourse_samePayloads (fp : Flightplan) (entryIndex : Z)
    (pred : option RouteMapObject) (r r' : RouteMapObject) :
  updateDistanceAndCourse fp entryIndex pred r = Some r' ->
  samePayloads r r'.
Proof.
  unfold updateDistanceAndCourse, samePayloads.
  destruct (isAnyApproach (set_index entryIndex r)).
  - destruct (pointAfterRouteLeg pred (set_index entryIndex r)) as [p|].
    + destruct (getPosition fp p); simpl; [|done]. by intros [= <-].
    + simpl. by intros [= <-].
  - destruct pred as [p|].
    + destruct (getPosition fp p); simpl; [|done].
      destruct (getPosition fp (set_index entryIndex r)); simpl; [|done].
      by intros [= <-].
    + destruct (getPosition fp (set_index entryIndex r)); simpl; [|done].
      by intros [= <-].
Qed.

(** The position of the leg after [updateDistanceAndCourse] is the position
    the function has read. *)
Lemma updateDistanceAndCourse_position (fp : Flightplan) (entryIndex : Z)
    (pred : option RouteMapObject) (r r' : RouteMapObject) :
  updateDistanceAndCourse fp entryIndex pred r = Some r' ->
  getPosition fp r' = getPosition fp (set_index entryIndex r).
Proof.
  intros Hupd.
  apply updateDistanceAndCourse_fields in Hupd as Hf.
  destruct Hf as (_ & Ht & Hi & _).
  apply updateDistanceAndCourse_samePayloads in Hupd.
  by apply getPosition_ext.
Qed.

(** [updateDistanceAndCourse] returns as soon as the positions it reads are
    defined. *)
Lemma updateDistanceAndCourse_defined_at (fp : Flightplan) (entryIndex : Z)
    (pred : option RouteMapObject) (r : RouteMapObject) :
  predInPlan fp pred ->
  is_Some (getPosition fp (set_index entryIndex r)) ->
  is_Some (updateDistanceAndCourse fp entryIndex pred r).
Proof.
  intros Hpred [pos Hpos]. unfold updateDistanceAndCourse.
  destruct (isAnyApproach (set_index entryIndex r)).
  - destruct (pointAfterRouteLeg pred (set_index entryIndex r)) as [p|] eqn:Hp.
    + apply pointAfterRouteLeg_route in Hp as [-> Hroute].
      destruct (getPosition_defined fp p) as [pp ->]; [by apply Hpred|].
      by eexists.
    + by eexists.
  - rewrite Hpos. destruct pred as [p|]; [|by eexists].
    destruct (getPosition_defined fp p) as [pp ->]; [by apply Hpred|].
    by eexists.
Qed.

Lemma updateDistanceAndCourse_geometry_last (fp : Flightplan) (entryIndex : Z)
    (predRouteMapObj : option RouteMapObject) (r r' : RouteMapObject) :
  isAnyApproach r = false ->
  updateDistanceAndCourse fp entryIndex predRouteMapObj r = Some r' ->
  last (geometry r') = getPosition fp r'.
Proof.
  intros Hroute Hupd.
  rewrite (updateDistanceAndCourse_position _ _ _ _ _ Hupd).
  revert Hupd. unfold updateDistanceAndCourse.
  change (isAnyApproach (set_index entryIndex r)) with (isAnyApproach r).
  rewrite Hroute. destruct predRouteMapObj as [p|].
  - destruct (getPosition fp p) as [prevPos|]; simpl; [|done].
    destruct (getPosition fp (set_index entryIndex r)) as [pos|]; simpl; [|done].
    by intros [= <-].
  - destruct (getPosition fp (set_index entryIndex r)) as [pos|]; simpl; [|done].
    by intros [= <-].
Qed.

(** X2. For a leg that is no procedure leg, the geometry
    [updateDistanceAndCourse] stores ends at the position of the leg itself:
    it is that single point, with both distances and both courses zero,
    when there is no predecessor, and the line from the position of the
    predecessor otherwise. *)
Theorem route_leg_geometry_ends_at_its_position (fp : Flightplan)
    (entryIndex : Z) (predRouteMapObj : option RouteMapObject)
    (r r' : RouteMapObject) :
  isAnyApproach r = false ->
  updateDistanceAndCourse fp entryIndex predRouteMapObj r = Some r' ->
  exists pos,
    getPosition fp r' = Some pos
    /\ match predRouteMapObj with
       | None =>
           getGeometry r' = [pos]
           /\ distanceTo r' = F32.zero /\ distanceToRhumb r' = F32.zero
           /\ courseTo r' = F32.zero /\ courseRhumbTo r' = F32.zero
       | Some pred =>
           exists prevPos,
             getPosition fp pred = Some prevPos
             /\ getGeometry r' = [prevPos; pos]
       end.
Proof.
  intros Hroute Hupd.
  rewrite (updateDistanceAndCourse_position _ _ _ _ _ Hupd).
  revert Hupd. unfold updateDistanceAndCourse.
  change (isAnyApproach (set_index entryIndex r)) with (isAnyApproach r).
  rewrite Hroute. destruct predRouteMapObj as [p|].
  - destruct (getPosition fp p) as [prevPos|]; simpl; [|done].
    destruct (getPosition fp (set_index entryIndex r)) as [pos|]; simpl; [|done].
    intros [= <-]. exists pos. split; [done|]. by exists prevPos.
  - destruct (getPosition fp (set_index entryIndex r)) as [pos|]; simpl; [|done].
    intros [= <-]. by exists pos.
Qed.

(** X3. [updateDistanceAndCourse] recomputes the same values when it is
    called again with the same index and predecessor: the derived fields
    depend on nothing the function assigns. *)
Theorem updateDistanceAndCourse_idempotent (fp : Flightplan) (entryIndex : Z)
    (predRouteMapObj : option RouteMapObject) (r r' : RouteMapObject) :
  updateDistanceAndCourse fp entryIndex predRouteMapObj r = Some r' ->
  updateDistanceAndCourse fp entryIndex predRouteMapObj r' = Some r'.
Proof.
  intros Hupd.
  assert (getPosition fp (set_index entryIndex r')
          = getPosition fp (set_index entryIndex r)) as Hpos.
  { apply updateDistanceAndCourse_fields in Hupd as Hf.
    destruct Hf as (_ & Ht & _).
    apply updateDistanceAndCourse_samePayloads in Hupd as Hp.
    by apply getPosition_ext. }
  assert (isAnyApproach (set_index entryIndex r') = isAnyApproach r) as Happroach.
  { apply updateDistanceAndCourse_fields in Hupd as (_ & Ht & _).
    unfold isAnyApproach. simpl. by rewrite Ht. }
  assert (pointAfterRouteLeg predRouteMapObj (set_index entryIndex r')
          = pointAfterRouteLeg predRouteMapObj r) as Hpoint.
  { apply updateDistanceAndCourse_samePayloads in Hupd as (_&_&_&_&_&_&_&_&Hl).
    unfold pointAfterRouteLeg. simpl. by rewrite Hl. }
  assert (approachLeg (set_index entryIndex r') = approachLeg r) as Hleg.
  { by apply updateDistanceAndCourse_samePayloads in Hupd
      as (_&_&_&_&_&_&_&_&Hl). }
  (* the second call takes the branch of the first and reads the same
     positions; the fields it assigns replace those of the first call *)
  unfold updateDistanceAndCourse at 1. rewrite Happroach, Hpoint, Hpos, Hleg.
  revert Hupd. unfold updateDistanceAndCourse.
  change (isAnyApproach (set_index entryIndex r)) with (isAnyApproach r).
  change (pointAfterRouteLeg predRouteMapObj (set_index entryIndex r))
    with (pointAfterRouteLeg predRouteMapObj r).
  change (approachLeg (set_index entryIndex r)) with (approachLeg r).
  destruct (isAnyApproach r).
  - destruct (pointAfterRouteLeg predRouteMapObj r) as [p|].
    + destruct (getPosition fp p) as [prevPos|]; simpl; [|done].
      intros [= <-]. destruct r. vm_compute. reflexivity.
    + simpl. intros [= <-]. destruct r. vm_compute. reflexivity.
  - destruct predRouteMapObj as [p|].
    + destruct (getPosition fp p) as [prevPos|]; simpl; [|done].
      destruct (getPosition fp (set_index entryIndex r)) as [pos|];
        simpl; [|done].
      intros [= <-]. destruct r. vm_compute. reflexivity.
    + destruct (getPosition fp (set_index entryIndex r)) as [pos|];
        simpl; [|done].
      intros [= <-]. destruct r. vm_compute. reflexivity.
Qed.

(** X4. A procedure leg does not read the flight plan: its position is
    the end of the line of the procedure definition, its entry is the empty
    entry, its airway is empty, and its identifier is defined and the same
    for every flight plan, also when the index of the leg lies outside. *)
Theorem procedure_leg_accessors_ignore_flightplan (fp fp' : Flightplan)
    (r : RouteMapObject) :
  isAnyApproach r = true ->
  getPosition fp r = Some (getPos2 (leg_line (approachLeg r)))
  /\ curEntry fp r = Some EMPTY_FLIGHTPLAN_ENTRY
  /\ legAirway fp r = Some EmptyString
  /\ is_Some (getIdent fp r)
  /\ getIdent fp' r = getIdent fp r
  /\ getPosition fp' r = getPosition fp r.
Proof.
  intros Happroach.
  unfold getPosition, legAirway, getIdent, curEntry, isRoute.
  rewrite Happroach. simpl. repeat split.
  repeat match goal with
    | |- context [if ?b then _ else _] => destruct b; [by eexists|]
    end.
  destruct (leg_displayText (approachLeg r)); by eexists.
Qed.

End GeometryMore.

(** ** Creation from an airport and from a procedure leg *)

Section CreationMore.

Context {G : Geo} {MT : MapTypes}.

(** X5. [createFromAirport] with a valid airport returns a valid leg
    of the type [AIRPORT] at the index given, whatever the leg held before:
    identifier, name, position and magnetic variation read back from the
    leg are those of the airport, the geometry ends at the position of the
    airport, and [getId] is the id of the airport unless the leg still holds
    a valid waypoint, VOR or NDB from an earlier use. *)
Theorem createFromAirport_round_trip (fp : Flightplan) (entryIndex : Z)
    (newAirport : MapAirport) (predRouteMapObj : option RouteMapObject)
    (r : RouteMapObject) :
  MapAirport_isValid newAirport = true ->
  predInPlan fp predRouteMapObj ->
  exists r',
    createFromAirport fp entryIndex newAirport predRouteMapObj r = Some r'
    /\ valid r' = true /\ type r' = AIRPORT /\ index r' = entryIndex
    /\ airport r' = newAirport
    /\ getIdent fp r' = Some (airport_ident newAirport)
    /\ getName r' = airport_name newAirport
    /\ getPosition fp r' = Some (airport_position newAirport)
    /\ getMagvar r' = airport_magvar newAirport
    /\ last (getGeometry r') = Some (airport_position newAirport)
    /\ (MapWaypoint_isValid (waypoint r) = false ->
        MapVor_isValid (vor r) = false -> MapNdb_isValid (ndb r) = false ->
        getId r' = airport_id newAirport).
Proof.
  intros Hvalid Hpred. unfold createFromAirport.
  set (r1 := set_airport newAirport (set_type AIRPORT (set_index entryIndex r))).
  assert (updateMagvar r1 = set_magvar (airport_magvar newAirport) r1) as Hmag.
  { unfold updateMagvar. change (isAnyApproach r1) with false.
    change (airport r1) with newAirport. by rewrite Hvalid. }
  rewrite Hmag. set (r2 := set_magvar (airport_magvar newAirport) r1).
  assert (getPosition fp (set_index entryIndex r2)
          = Some (airport_position newAirport)) as Hpos.
  { unfold getPosition. simpl. by rewrite Hvalid. }
  destruct (updateDistanceAndCourse_defined_at fp entryIndex predRouteMapObj r2)
    as [r3 Hupd]; [done|by rewrite Hpos|].
  rewrite Hupd. simpl. exists (set_valid true r3). split; [done|].
  pose proof (updateDistanceAndCourse_fields _ _ _ _ _ Hupd)
    as (_ & Ht & Hi & Hm & _).
  pose proof (updateDistanceAndCourse_samePayloads _ _ _ _ _ Hupd)
    as (Ha & Hv & Hn & Hw & Hils & He & _ & _ & Hl).
  pose proof (updateDistanceAndCourse_position _ _ _ _ _ Hupd) as Hpos3.
  rewrite Hpos in Hpos3. simpl in Ht, Hi, Hm, Ha, Hv, Hn, Hw.
  assert (getPosition fp (set_valid true r3) = getPosition fp r3) as Hpv.
  { apply getPosition_ext; done. }
  pose proof (updateDistanceAndCourse_geometry_last fp entryIndex
                predRouteMapObj r2 r3 eq_refl Hupd) as Hlast.
  rewrite Hpos3 in Hlast.
  split; [done|]. split; [done|]. split; [done|]. split; [done|].
  split. { unfold getIdent. simpl. by rewrite Ha, Hvalid. }
  split. { unfold getName. simpl. rewrite Ht, Ha, Hvalid. done. }
  split. { by rewrite Hpv. }
  split. { done. }
  split.
  { unfold getGeometry. simpl. exact Hlast. }
  intros Hw0 Hv0 Hn0. unfold getId. simpl.
  rewrite Ht, Hw, Hv, Hn, Ha, Hw0, Hv0, Hn0, Hvalid. done.
Qed.

(** X6. [createFromApproachLeg] takes the leg [entryIndex] of the
    procedure and does not return when there is none. For a leg of a
    procedure kind it returns a valid leg of that kind whose magnetic
    variation, geometry and position are those of the procedure definition,
    and whose waypoint, VOR, NDB, ILS and runway end are the first ones of
    the navaids of the definition, or what the leg held before where the
    definition has none. *)
Theorem createFromApproachLeg_takes_the_definition (fp : Flightplan)
    (entryIndex : Z) (legs : list MapApproachLeg)
    (predRouteMapObj : option RouteMapObject) (r : RouteMapObject) :
  match at_ legs entryIndex with
  | None =>
      createFromApproachLeg fp entryIndex legs predRouteMapObj r = None
  | Some leg =>
      forall k, leg_mapType leg = PROCEDURE k ->
      predInPlan fp predRouteMapObj ->
      exists r',
        createFromApproachLeg fp entryIndex legs predRouteMapObj r = Some r'
        /\ valid r' = true /\ type r' = PROCEDURE k /\ index r' = entryIndex
        /\ approachLeg r' = leg
        /\ getMagvar r' = leg_magvar leg
        /\ getGeometry r' = leg_geometry leg
        /\ getPosition fp r' = Some (getPos2 (leg_line leg))
        /\ waypoint r' = hd (waypoint r) (waypoints (leg_navaids leg))
        /\ vor r' = hd (vor r) (vors (leg_navaids leg))
        /\ ndb r' = hd (ndb r) (ndbs (leg_navaids leg))
        /\ ils r' = hd (ils r) (ilss (leg_navaids leg))
        /\ runwayEnd r' = hd (runwayEnd r) (runwayEnds (leg_navaids leg))
  end.
Proof.
  unfold createFromApproachLeg.
  destruct (at_ legs entryIndex) as [leg|]; [|done].
  intros k Hkind Hpred. simpl.
  set (r1 := setFirst _ _ (setFirst _ _ (setFirst _ _ (setFirst _ _
               (setFirst _ _ _))))).
  assert (type r1 = PROCEDURE k /\ approachLeg r1 = leg /\ index r1 = entryIndex
          /\ waypoint r1 = hd (waypoint r) (waypoints (leg_navaids leg))
          /\ vor r1 = hd (vor r) (vors (leg_navaids leg))
          /\ ndb r1 = hd (ndb r) (ndbs (leg_navaids leg))
          /\ ils r1 = hd (ils r) (ilss (leg_navaids leg))
          /\ runwayEnd r1 = hd (runwayEnd r) (runwayEnds (leg_navaids leg)))
    as (Ht1 & Hl1 & Hi1 & Hw1 & Hv1 & Hn1 & Hils1 & He1).
  { subst r1. unfold setFirst.
    destruct (waypoints (leg_navaids leg)), (vors (leg_navaids leg)),
      (ndbs (leg_navaids leg)), (ilss (leg_navaids leg)),
      (runwayEnds (leg_navaids leg)); done. }
  assert (isAnyApproach r1 = true) as Happroach.
  { unfold isAnyApproach. by rewrite Ht1. }
  assert (updateMagvar r1 = set_magvar (leg_magvar leg) r1) as Hmag.
  { unfold updateMagvar. by rewrite Happroach, Hl1. }
  rewrite Hmag. set (r2 := set_magvar (leg_magvar leg) r1).
  destruct (updateDistanceAndCourse_defined fp entryIndex predRouteMapObj r2)
    as [r3 Hupd]; [done| |].
  { unfold isRoute. change (isAnyApproach r2) with (isAnyApproach r1).
    by rewrite Happroach. }
  rewrite Hupd. simpl. exists (set_valid true r3). split; [done|].
  pose proof (updateDistanceAndCourse_fields _ _ _ _ _ Hupd)
    as (_ & Ht & Hi & Hm & _).
  pose proof (updateDistanceAndCourse_samePayloads _ _ _ _ _ Hupd)
    as (Ha & Hv & Hn & Hw & Hils & He & _ & _ & Hl).
  simpl in Ht, Hm, Hv, Hn, Hw, Hils, He, Hl.
  assert (geometry r3 = leg_geometry leg) as Hgeo.
  { revert Hupd. unfold updateDistanceAndCourse.
    change (isAnyApproach (set_index entryIndex r2)) with (isAnyApproach r1).
    rewrite Happroach. change (approachLeg (set_index entryIndex r2))
      with (approachLeg r1). rewrite Hl1.
    destruct (pointAfterRouteLeg _ _) as [p|].
    - destruct (getPosition fp p); simpl; [|done]. by intros [= <-].
    - simpl. by intros [= <-]. }
  repeat split; simpl; try congruence.
  unfold getPosition, isAnyApproach. simpl. rewrite Ht, Ht1, Hl, Hl1. done.
Qed.

End CreationMore.

(** ** Resolution from the database, continued *)

Section ResolutionMore.

Context {G : Geo} {MT : MapTypes}.

(** The leg [createFromDatabaseByEntry] returns, in terms of the state
    after the [switch]: the payloads are those of that state. *)
Lemma createFromDatabaseByEntry_self (query : MapQuery) (entryIndex : Z)
    (pred : option RouteMapObject) (s s' : State) :
  createFromDatabaseByEntry query entryIndex pred s = Some s' ->
  exists entry,
    at_ (getEntries (flightplan s)) entryIndex = Some entry
    /\ let s2 := resolveEntry query entryIndex entry pred
                   (set_self (set_index entryIndex (self s)) s) in
       flightplan s' = flightplan s2 /\ queries s' = queries s2
       /\ samePayloads (self s2) (self s')
       /\ index (self s') = entryIndex
       /\ valid (self s') = valid (self s2)
       /\ type (self s') = (if valid (self s2) then type (self s2) else INVALID).
Proof.
  intros Hs'.
  pose proof (createFromDatabaseByEntry_inv _ _ _ _ _ Hs')
    as (entry & Hentry & Hfp & Hq & Hv & Ht).
  exists entry. split; [done|]. simpl in *.
  split; [done|]. split; [done|]. split; [|split; [|done]].
  - revert Hs'. unfold createFromDatabaseByEntry. simpl. rewrite Hentry. simpl.
    generalize (resolveEntry query entryIndex entry pred
                  (set_self (set_index entryIndex (self s)) s)).
    intros s2.
    destruct (updateDistanceAndCourse _ _ _ _) as [r'|] eqn:Hupd; [|done].
    simpl. intros [= <-]. simpl.
    apply updateDistanceAndCourse_samePayloads in Hupd.
    pose proof (updateMagvar_samePayloads
                  (if negb (valid (self s2)) then set_type INVALID (self s2)
                   else self s2)) as Hmag.
    unfold samePayloads in *.
    destruct Hupd as (-> & -> & -> & -> & -> & -> & -> & -> & ->).
    destruct Hmag as (-> & -> & -> & -> & -> & -> & -> & -> & ->).
    by destruct (valid (self s2)).
  - revert Hs'. unfold createFromDatabaseByEntry. simpl. rewrite Hentry. simpl.
    destruct (updateDistanceAndCourse _ _ _ _) as [r'|] eqn:Hupd; [|done].
    simpl. intros [= <-]. simpl.
    by apply updateDistanceAndCourse_fields in Hupd as (_ & _ & Hi & _).
Qed.

Lemma entryRewritten_refl (entryIndex : Z) (entry : FlightplanEntry)
    (fp : Flightplan) :
  at_ (getEntries fp) entryIndex = Some entry ->
  entryRewritten entryIndex entry fp fp.
Proof.
  intros Hentry. split; [done|]. exists entry.
  apply at_in_range in Hentry as [_ Hlook]. by rewrite list_insert_id.
Qed.

Lemma resolveDeparture_departurePosition (query : MapQuery) (name : string)
    (s : State) :
  getDeparturePosition (flightplan (resolveDeparture query name s))
  = getDeparturePosition (flightplan s).
Proof. unfold resolveDeparture. by case_all. Qed.

Lemma resolveNavaid_frame {TYPE : Type} {P : Positioned TYPE}
    (kind : MapObjectTypes) (candidates : list TYPE)
    (store : TYPE -> RouteMapObject -> RouteMapObject)
    (regionOf identOf : TYPE -> string) (entryIndex : Z)
    (entry : FlightplanEntry) (s : State) :
  at_ (getEntries (flightplan s)) entryIndex = Some entry ->
  let s2 := resolveNavaid kind candidates store regionOf identOf entryIndex
              entry s in
  entryRewritten entryIndex entry (flightplan s) (flightplan s2)
  /\ getDepartureParkingName (flightplan s2)
     = getDepartureParkingName (flightplan s).
Proof.
  intros Hentry. unfold resolveNavaid.
  destruct (findMapObject _ _) as [obj []]; simpl;
    [|split; [by apply entryRewritten_refl|done]].
  destruct (F32.ltb _ _); simpl;
    [|split; [by apply entryRewritten_refl|done]].
  split; [|done]. split; [done|]. by eexists.
Qed.

Lemma resolveEntry_frame (query : MapQuery) (entryIndex : Z)
    (entry : FlightplanEntry) (pred : option RouteMapObject) (s : State) :
  at_ (getEntries (flightplan s)) entryIndex = Some entry ->
  let s2 := resolveEntry query entryIndex entry pred s in
  entryRewritten entryIndex entry (flightplan s) (flightplan s2)
  /\ (getWaypointType entry <> AIRPORT_ENTRY \/ pred <> None ->
      getDepartureParkingName (flightplan s2)
      = getDepartureParkingName (flightplan s)).
Proof.
  intros Hentry. unfold resolveEntry.
  destruct (getWaypointType entry) eqn:Htype.
  - split; [by apply entryRewritten_refl|done].
  - unfold resolveAirport.
    destruct (airports _) as [|first rest]; simpl;
      [split; [by apply entryRewritten_refl|done]|].
    destruct (negb _ && isNull pred) eqn:Hdep; simpl.
    + split.
      * split; [by rewrite resolveDeparture_departurePosition|].
        exists entry. rewrite resolveDeparture_entries.
        apply at_in_range in Hentry as [_ Hlook]. simpl.
        by rewrite list_insert_id.
      * intros [?|Hpred]; [done|]. destruct pred; [|done].
        simpl in Hdep. by rewrite andb_false_r in Hdep.
    + split; [by apply entryRewritten_refl|done].
  - destruct (resolveNavaid_frame WAYPOINT
                (waypoints (getMapObjectByIdent query WAYPOINT
                              (getIcaoIdent entry) (queryRegion entry)))
                set_waypoint waypoint_region waypoint_ident entryIndex entry
                (logQuery (QMapObjectByIdent WAYPOINT (getIcaoIdent entry)
                             (queryRegion entry)) s) Hentry) as [Hframe Hname].
    split; [exact Hframe|]. intros _. exact Hname.
  - destruct (resolveNavaid_frame VOR
                (vors (getMapObjectByIdent query VOR
                         (getIcaoIdent entry) (queryRegion entry)))
                set_vor vor_region vor_ident entryIndex entry
                (logQuery (QMapObjectByIdent VOR (getIcaoIdent entry)
                             (queryRegion entry)) s) Hentry) as [Hframe Hname].
    split; [exact Hframe|]. intros _. exact Hname.
  - destruct (resolveNavaid_frame NDB
                (ndbs (getMapObjectByIdent query NDB
                         (getIcaoIdent entry) (queryRegion entry)))
                set_ndb ndb_region ndb_ident entryIndex entry
                (logQuery (QMapObjectByIdent NDB (getIcaoIdent entry)
                             (queryRegion entry)) s) Hentry) as [Hframe Hname].
    split; [exact Hframe|]. intros _. exact Hname.
  - simpl. split; [|done]. split; [done|]. by eexists.
Qed.

(** X7. Whatever the entry and the answer of the database,
    [createFromDatabaseByEntry] keeps the number of entries of the flight
    plan, every other entry, and the waypoint type, the waypoint id and the
    airway of the entry it resolves, and it keeps the departure position.
    The departure parking name can change only for an airport entry
    without predecessor. *)
Theorem resolution_touches_one_entry (query : MapQuery) (entryIndex : Z)
    (predRouteMapObj : option RouteMapObject) (s s' : State) :
  createFromDatabaseByEntry query entryIndex predRouteMapObj s = Some s' ->
  exists entry entry',
    at_ (getEntries (flightplan s)) entryIndex = Some entry
    /\ at_ (getEntries (flightplan s')) entryIndex = Some entry'
    /\ getWaypointType entry' = getWaypointType entry
    /\ getWaypointId entry' = getWaypointId entry
    /\ getAirway entry' = getAirway entry
    /\ length (getEntries (flightplan s')) = length (getEntries (flightplan s))
    /\ (forall j, j <> entryIndex ->
          at_ (getEntries (flightplan s')) j = at_ (getEntries (flightplan s)) j)
    /\ getDeparturePosition (flightplan s') = getDeparturePosition (flightplan s)
    /\ (getWaypointType entry <> AIRPORT_ENTRY \/ predRouteMapObj <> None ->
        getDepartureParkingName (flightplan s')
        = getDepartureParkingName (flightplan s)).
Proof.
  intros Hs'.
  apply createFromDatabaseByEntry_inv in Hs' as (entry & Hentry & Hfp & _).
  simpl in Hfp.
  destruct (resolveEntry_frame query entryIndex entry predRouteMapObj
              (set_self (set_index entryIndex (self s)) s) Hentry)
    as [[Hpos (entry' & Hentries & Ht & Hid & Haw)] Hname].
  simpl in Hpos, Hentries, Hname. rewrite <- Hfp in Hpos, Hentries, Hname.
  apply at_in_range in Hentry as Hrange. destruct Hrange as [Hrange _].
  exists entry, entry'. split; [done|]. rewrite Hentries.
  split.
  { unfold at_. destruct (0 <=? entryIndex) eqn:H0; [|lia].
    apply list_lookup_insert_eq. lia. }
  split; [done|]. split; [done|]. split; [done|].
  split; [by rewrite length_insert|]. split; [|done].
  intros j Hj. unfold at_. destruct (0 <=? j) eqn:H0; [|done].
  apply Z.leb_le in H0. apply list_lookup_insert_ne. lia.
Qed.

(** X8. An entry of an unknown waypoint type is resolved without
    any query and without a change of the flight plan or of the payloads:
    a leg that was valid stays valid with its type, any other leg gets the
    type [INVALID]. *)
Theorem unknown_entry_changes_nothing (query : MapQuery) (entryIndex : Z)
    (predRouteMapObj : option RouteMapObject) (s : State)
    (entry : FlightplanEntry) :
  at_ (getEntries (flightplan s)) entryIndex = Some entry ->
  getWaypointType entry = UNKNOWN ->
  predInPlan (flightplan s) predRouteMapObj ->
  exists s',
    createFromDatabaseByEntry query entryIndex predRouteMapObj s = Some s'
    /\ flightplan s' = flightplan s /\ queries s' = queries s
    /\ samePayloads (self s) (self s')
    /\ valid (self s') = valid (self s)
    /\ type (self s') = (if valid (self s) then type (self s) else INVALID).
Proof.
  intros Hentry Hunknown Hpred.
  destruct (createFromDatabaseByEntry_defined query entryIndex predRouteMapObj
              s entry Hentry Hpred) as [s' Hs'].
  exists s'. split; [done|].
  apply createFromDatabaseByEntry_self in Hs'
    as (e & He & Hfp & Hq & Hp & _ & Hv & Ht).
  rewrite Hentry in He. injection He as <-.
  unfold resolveEntry in Hfp, Hq, Hp, Hv, Ht.
  rewrite Hunknown in Hfp, Hq, Hp, Hv, Ht. done.
Qed.

End ResolutionMore.

Section ResolutionOutcomes.

Context {G : Geo} {MT : MapTypes}.



Lemma at_setEntry (entryIndex : Z) (entry e : FlightplanEntry) (fp : Flightplan) :
  at_ (getEntries fp) entryIndex = Some entry ->
  at_ (getEntries (setEntry entryIndex e fp)) entryIndex = Some e.
Proof.
  intros Hentry. apply at_in_range in Hentry as [Hrange _].
  unfold at_, setEntry. simpl. destruct (0 <=? entryIndex) eqn:H0; [|lia].
  apply list_lookup_insert_eq. lia.
Qed.



(** X11. An airport entry that is found for a leg with a predecessor,
    or in a flight plan without departure parking name, gives a valid leg
    of the type [AIRPORT] with that airport and with default parking and
    start position, after the one airport query and without any change of
    the flight plan. *)
Theorem airport_after_the_first_resets_departure (query : MapQuery)
    (entryIndex : Z) (predRouteMapObj : option RouteMapObject) (s : State)
    (entry : FlightplanEntry) (first : MapAirport) (rest : list MapAirport) :
  at_ (getEntries (flightplan s)) entryIndex = Some entry ->
  getWaypointType entry = AIRPORT_ENTRY ->
  airports (getMapObjectByIdent query AIRPORT (getIcaoIdent entry) EmptyString)
  = first :: rest ->
  predInPlan (flightplan s) predRouteMapObj ->
  predRouteMapObj <> None
  \/ QStr.isEmpty (QStr.trimmed (getDepartureParkingName (flightplan s))) = true ->
  exists s',
    createFromDatabaseByEntry query entryIndex predRouteMapObj s = Some s'
    /\ valid (self s') = true /\ type (self s') = AIRPORT
    /\ airport (self s') = first
    /\ parking (self s') = MapParking_default
    /\ start (self s') = MapStart_default
    /\ flightplan s' = flightplan s
    /\ queries s' = queries s ++
         [QMapObjectByIdent AIRPORT (getIcaoIdent entry) EmptyString].
Proof.
  intros Hentry Hairport Hfound Hpred Hnot.
  destruct (createFromDatabaseByEntry_defined query entryIndex predRouteMapObj
              s entry Hentry Hpred) as [s' Hs'].
  exists s'. split; [done|].
  apply createFromDatabaseByEntry_self in Hs'
    as (e & He & Hfp & Hq & Hp & _ & Hv & Ht).
  rewrite Hentry in He. injection He as <-.
  destruct Hp as (Ha & _ & _ & _ & _ & _ & Hpark & Hstart & _).
  unfold resolveEntry in Hfp, Hq, Ha, Hpark, Hstart, Hv, Ht.
  rewrite Hairport in Hfp, Hq, Ha, Hpark, Hstart, Hv, Ht.
  unfold resolveAirport in Hfp, Hq, Ha, Hpark, Hstart, Hv, Ht.
  rewrite Hfound in Hfp, Hq, Ha, Hpark, Hstart, Hv, Ht.
  simpl in Hfp, Hq, Ha, Hpark, Hstart, Hv, Ht.
  assert (negb (QStr.isEmpty (QStr.trimmed
                  (getDepartureParkingName (flightplan s))))
          && isNull predRouteMapObj = false) as Hdep.
  { destruct Hnot as [Hp| ->]; [|done].
    destruct predRouteMapObj; [|done]. apply andb_false_r. }
  rewrite Hdep in Hfp, Hq, Ha, Hpark, Hstart, Hv, Ht.
  simpl in Hfp, Hq, Ha, Hpark, Hstart, Hv, Ht.
  done.
Qed.

(** X12. The first airport leg of a flight plan with a departure
    parking name: the entries stay as they are, the leg holds the airport,
    and
    - a name with letters is looked up as a parking spot: the first spot
      found is stored and its name for the flight plan becomes the
      departure parking name; when none is found the name is cleared;
    - a name without letters is looked up as a start position, which is
      stored: the departure parking name becomes the number of the helipad,
      or the runway name, and is cleared when the start position is not
      valid.
    The member that is not looked up is left as it was. *)
Theorem departure_lookup_outcome (query : MapQuery) (entryIndex : Z)
    (s : State) (entry : FlightplanEntry) (first : MapAirport)
    (rest : list MapAirport) :
  at_ (getEntries (flightplan s)) entryIndex = Some entry ->
  getWaypointType entry = AIRPORT_ENTRY ->
  airports (getMapObjectByIdent query AIRPORT (getIcaoIdent entry) EmptyString)
  = first :: rest ->
  QStr.isEmpty (QStr.trimmed (getDepartureParkingName (flightplan s))) = false ->
  let name := QStr.trimmed (getDepartureParkingName (flightplan s)) in
  exists s',
    createFromDatabaseByEntry query entryIndex None s = Some s'
    /\ airport (self s') = first
    /\ getEntries (flightplan s') = getEntries (flightplan s)
    /\ if QStr.isEmpty (parkingNameOf name) then
         let found :=
           getStartByNameAndPos query (start (self s)) (airport_id first) name
             (getDeparturePosition (flightplan s)) in
         start (self s') = found /\ parking (self s') = parking (self s)
         /\ getDepartureParkingName (flightplan s')
            = (if MapStart_isValid found
               then if 0 <? start_helipadNumber found
                    then QStr.number (start_helipadNumber found)
                    else start_runwayName found
               else EmptyString)
       else
         start (self s') = start (self s)
         /\ match getParkingByNameAndNumber query (airport_id first)
                  (parkingDatabaseName (parkingNameOf name))
                  (parkingNumberOf name) with
            | [] =>
                parking (self s') = parking (self s)
                /\ getDepartureParkingName (flightplan s') = EmptyString
            | spot :: _ =>
                parking (self s') = spot
                /\ getDepartureParkingName (flightplan s')
                   = parkingNameForFlightplan spot
            end.
Proof.
  intros Hentry Hairport Hfound Hname name.
  destruct (createFromDatabaseByEntry_defined query entryIndex None
              s entry Hentry I) as [s' Hs'].
  exists s'. split; [done|].
  apply createFromDatabaseByEntry_self in Hs'
    as (e & He & Hfp & _ & Hp & _).
  rewrite Hentry in He. injection He as <-.
  destruct Hp as (Ha & _ & _ & _ & _ & _ & Hpark & Hstart & _).
  unfold resolveEntry in Hfp, Ha, Hpark, Hstart.
  rewrite Hairport in Hfp, Ha, Hpark, Hstart.
  unfold resolveAirport in Hfp, Ha, Hpark, Hstart.
  rewrite Hfound in Hfp, Ha, Hpark, Hstart.
  simpl in Hfp, Ha, Hpark, Hstart.
  rewrite Hname in Hfp, Ha, Hpark, Hstart.
  simpl in Hfp, Ha, Hpark, Hstart. fold name in Hfp, Ha, Hpark, Hstart.
  unfold resolveDeparture in Hfp, Ha, Hpark, Hstart.
  simpl in Hfp, Ha, Hpark, Hstart.
  rewrite Hfp, Ha, Hpark, Hstart.
  destruct (QStr.isEmpty (parkingNameOf name)); simpl.
  - destruct (MapStart_isValid _); simpl; [|done].
    by destruct (0 <? _).
  - by destruct (getParkingByNameAndNumber _ _ _ _).
Qed.

End ResolutionOutcomes.

(** ** Magnetic variation backfill, continued *)

Section BackfillMore.

Context {G : Geo} {MT : MapTypes}.

Lemma backfill_out_of_bounds (entryIndex : Z) (magvars : list float) :
  magvars = [] \/ entryIndex < 0 -> backfill entryIndex magvars = None.
Proof.
  intros Hout. unfold backfill.
  set (from := Z.min entryIndex (Z.of_nat (length magvars) - 1)).
  assert (from < 0) as Hfrom.
  { destruct Hout as [-> |?]; [simpl in from|]; lia. }
  replace (Z.to_nat (from + 1)) with 0%nat by lia. simpl.
  destruct (Z.to_nat (Z.of_nat (length magvars) - from)) as [|n] eqn:Hn; [lia|].
  simpl scanForward. unfold at_.
  destruct (0 <=? Z.of_nat (length magvars) - Z.of_nat (S n)) eqn:H0; [|done].
  apply Z.leb_le in H0. lia.
Qed.

(** X13. The index [updateInvalidMagvar] is given is cut down to the
    last index of the route, so every index past the end scans from the
    last leg. Nothing guards the other side: on an empty route or with a
    negative index the forward loop reads in front of the list, and the call
    on a leg of the kind User or Invalid does not return. *)
Theorem backfill_index_bounds (entryIndex : Z)
    (routeList : list RouteMapObject) (r : RouteMapObject) :
  type r = USER \/ type r = INVALID ->
  (Z.of_nat (length routeList) - 1 <= entryIndex ->
   updateInvalidMagvar entryIndex routeList r
   = updateInvalidMagvar (Z.of_nat (length routeList) - 1) routeList r)
  /\ (routeList = [] \/ entryIndex < 0 ->
      updateInvalidMagvar entryIndex routeList r = None).
Proof.
  intros Hkind. unfold updateInvalidMagvar.
  assert (bool_decide (type r = USER) || bool_decide (type r = INVALID) = true)
    as ->.
  { destruct Hkind as [-> | ->]; done. }
  split.
  - intros Hpast. unfold backfill. rewrite length_fmap.
    by rewrite Z.min_r, Z.min_id by lia.
  - intros Hout. rewrite backfill_out_of_bounds; [done|].
    destruct Hout as [-> |?]; [by left|by right].
Qed.

Lemma set_magvar_twice (a b : float) (r : RouteMapObject) :
  set_magvar a (set_magvar b r) = set_magvar a r.
Proof. done. Qed.

(** X14. The backfill of a leg of the route is stable: a second call on
    the route the first call returned changes nothing, because the leg
    sets its own magnetic variation to zero before the scans read it. *)
Theorem backfill_in_route_is_stable (k : nat) (entryIndex : Z)
    (routeList routeList' : list RouteMapObject) :
  updateInvalidMagvarAt k entryIndex routeList = Some routeList' ->
  updateInvalidMagvarAt k entryIndex routeList' = Some routeList'.
Proof.
  unfold updateInvalidMagvarAt.
  destruct (routeList !! k) as [r|] eqn:Hk; simpl; [|done].
  apply lookup_lt_Some in Hk as Hlt.
  destruct (bool_decide (type r = USER) || bool_decide (type r = INVALID))
    eqn:Hkind.
  - destruct (backfill entryIndex
                (getMagvar <$> <[k := set_magvar F32.zero r]> routeList))
      as [m|] eqn:Hfill; simpl; [|done].
    intros [= <-]. rewrite list_insert_insert_eq.
    rewrite list_lookup_insert_eq by done. simpl.
    change (type (set_magvar m (set_magvar F32.zero r))) with (type r).
    rewrite Hkind, !set_magvar_twice, list_insert_insert_eq, Hfill. simpl.
    by rewrite list_insert_insert_eq.
  - intros [= <-]. rewrite Hk. simpl. by rewrite Hkind.
Qed.

End BackfillMore.

(** ** The departure parking name *)

Section ParkingName.

Context {G : Geo} {MT : MapTypes}.

Lemma isDigit_not_isNameChar (c : ascii) :
  QStr.isDigit c = true -> Regex.isNameChar c = false.
Proof.
  destruct c as [[] [] [] [] [] [] [] []]; vm_compute; congruence.
Qed.

Lemma span_app (p : ascii -> bool) (a rest : string) :
  allChars p a = true -> startsWith p rest = false ->
  Regex.span p (a +:+ rest) = (a, rest).
Proof.
  intros Ha Hrest. induction a as [|c a IH]; simpl in *.
  - destruct rest as [|c rest]; [done|]. simpl in *. by rewrite Hrest.
  - apply andb_prop in Ha as [Hc Ha]. by rewrite Hc, IH.
Qed.

Lemma search_unfold (s : string) :
  Regex.search s
  = match Regex.matchHere s with
    | Some m => Some m
    | None => match s with
              | String _ s' => Regex.search s'
              | EmptyString => None
              end
    end.
Proof. by destruct s. Qed.

Lemma isEmpty_replace_toUpper (s : string) :
  QStr.isEmpty (QStr.replace " " "_" (QStr.toUpper s)) = QStr.isEmpty s.
Proof. by destruct s. Qed.

(** The match of a name made of letters, digits and a rest that does not
    go on with a digit. *)
Lemma parking_pattern_letters_digits (letters digits rest : string) :
  allChars Regex.isNameChar letters = true ->
  allChars QStr.isDigit digits = true ->
  QStr.isEmpty digits = false ->
  startsWith QStr.isDigit rest = false ->
  PARKING_TO_NAME_AND_NUM (letters +:+ digits +:+ rest) = Some (letters, digits).
Proof.
  intros Hl Hd Hne Hrest. unfold PARKING_TO_NAME_AND_NUM.
  rewrite search_unfold. unfold Regex.matchHere.
  rewrite (span_app Regex.isNameChar letters (digits +:+ rest)); [|done|].
  - rewrite (span_app QStr.isDigit digits rest) by done. by rewrite Hne.
  - destruct digits as [|c digits]; [done|]. simpl in *.
    apply andb_prop in Hd as [Hc _]. by apply isDigit_not_isNameChar.
Qed.

Lemma span_rest_allChars (p q : ascii -> bool) (s : string) :
  allChars q s = true -> allChars q (snd (Regex.span p s)) = true.
Proof.
  induction s as [|c s IH]; [done|]. simpl. intros Hq.
  destruct (p c); [|done].
  apply andb_prop in Hq as [_ Hq]. specialize (IH Hq).
  by destruct (Regex.span p s).
Qed.

Lemma span_no_match (p : ascii -> bool) (s : string) :
  startsWith p s = false -> fst (Regex.span p s) = EmptyString.
Proof. destruct s as [|c s]; [done|]. simpl. by intros ->. Qed.

Lemma allChars_startsWith (p : ascii -> bool) (s : string) :
  allChars (fun c => negb (p c)) s = true -> startsWith p s = false.
Proof.
  destruct s as [|c s]; [done|]. simpl. intros H.
  apply andb_prop in H as [Hc _]. by destruct (p c).
Qed.

(** A name without a digit has no match. *)
Lemma parking_pattern_no_digit (name : string) :
  allChars (fun c => negb (QStr.isDigit c)) name = true ->
  PARKING_TO_NAME_AND_NUM name = None.
Proof.
  unfold PARKING_TO_NAME_AND_NUM.
  induction name as [|c name IH]; intros Hno; rewrite search_unfold.
  - done.
  - assert (Regex.matchHere (String c name) = None) as ->.
    { unfold Regex.matchHere.
      pose proof (span_rest_allChars Regex.isNameChar _ _ Hno) as Hrest.
      destruct (Regex.span Regex.isNameChar (String c name)) as [a b].
      simpl in Hrest. apply allChars_startsWith in Hrest.
      apply span_no_match in Hrest.
      destruct (Regex.span QStr.isDigit b) as [ds rest']. simpl in Hrest.
      by subst ds. }
    apply IH. simpl in Hno. by apply andb_prop in Hno as [_ Hno].
Qed.

(** A name that starts with a digit has a match without letters. *)
Lemma parking_pattern_leading_digit (name : string) :
  startsWith QStr.isDigit name = true ->
  Regex.captured1 (PARKING_TO_NAME_AND_NUM name) = EmptyString.
Proof.
  intros Hdigit. unfold PARKING_TO_NAME_AND_NUM. rewrite search_unfold.
  destruct name as [|c name]; [done|]. simpl in Hdigit.
  unfold Regex.matchHere. cbn [Regex.span].
  rewrite (isDigit_not_isNameChar c Hdigit). cbn [Regex.span].
  rewrite Hdigit. by destruct (Regex.span QStr.isDigit name).
Qed.

(** X15. A departure parking name made of letters, blanks or
    underscores, then digits, then nothing or something that is no digit, is
    a parking name: when the letters are not all blank, the first airport
    leg sends the parking query with the letters trimmed, in upper case and
    with underscores for blanks, and with the value of the digits as the
    number (0 when it does not fit an [int]). *)
Theorem letters_then_digits_is_a_parking (query : MapQuery) (entryIndex : Z)
    (s : State) (entry : FlightplanEntry) (first : MapAirport)
    (rest : list MapAirport) (letters digits tail : string) :
  at_ (getEntries (flightplan s)) entryIndex = Some entry ->
  getWaypointType entry = AIRPORT_ENTRY ->
  airports (getMapObjectByIdent query AIRPORT (getIcaoIdent entry) EmptyString)
  = first :: rest ->
  QStr.trimmed (getDepartureParkingName (flightplan s))
  = letters +:+ digits +:+ tail ->
  allChars Regex.isNameChar letters = true ->
  QStr.isEmpty (QStr.trimmed letters) = false ->
  allChars QStr.isDigit digits = true ->
  QStr.isEmpty digits = false ->
  startsWith QStr.isDigit tail = false ->
  exists s',
    createFromDatabaseByEntry query entryIndex None s = Some s'
    /\ queries s' = queries s ++
         [QMapObjectByIdent AIRPORT (getIcaoIdent entry) EmptyString;
          QParkingByNameAndNumber (airport_id first)
            (parkingDatabaseName
               (QStr.replace " " "_" (QStr.toUpper (QStr.trimmed letters))))
            (QStr.toInt digits)].
Proof.
  intros Hentry Hairport Hfound Hname Hl Htrim Hd Hne Htail.
  assert (QStr.isEmpty (letters +:+ digits +:+ tail) = false) as Hnonempty.
  { destruct letters; [|done]. by destruct digits. }
  destruct (departure_airport_queries query entryIndex s entry first rest
              Hentry Hairport Hfound) as (s' & Hs' & Hq).
  { by rewrite Hname. }
  exists s'. split; [done|]. rewrite Hq, Hname, <- app_assoc. simpl.
  unfold parkingNameOf, parkingNumberOf.
  rewrite (parking_pattern_letters_digits letters digits tail Hl Hd Hne Htail).
  simpl. by rewrite isEmpty_replace_toUpper, Htrim.
Qed.

(** X16. A departure parking name without any digit, or one that
    starts with a digit, has no letters in front of a number: the first
    airport leg sends the start position query with the whole name. *)
Theorem name_without_letters_is_a_start_position (query : MapQuery)
    (entryIndex : Z) (s : State) (entry : FlightplanEntry)
    (first : MapAirport) (rest : list MapAirport) :
  at_ (getEntries (flightplan s)) entryIndex = Some entry ->
  getWaypointType entry = AIRPORT_ENTRY ->
  airports (getMapObjectByIdent query AIRPORT (getIcaoIdent entry) EmptyString)
  = first :: rest ->
  let name := QStr.trimmed (getDepartureParkingName (flightplan s)) in
  QStr.isEmpty name = false ->
  allChars (fun c => negb (QStr.isDigit c)) name = true
  \/ startsWith QStr.isDigit name = true ->
  exists s',
    createFromDatabaseByEntry query entryIndex None s = Some s'
    /\ queries s' = queries s ++
         [QMapObjectByIdent AIRPORT (getIcaoIdent entry) EmptyString;
          QStartByNameAndPos (airport_id first) name
            (getDeparturePosition (flightplan s))].
Proof.
  intros Hentry Hairport Hfound name Hname Hshape.
  destruct (departure_airport_queries query entryIndex s entry first rest
              Hentry Hairport Hfound Hname) as (s' & Hs' & Hq).
  exists s'. split; [done|]. rewrite Hq, <- app_assoc. simpl. fold name.
  assert (parkingNameOf name = EmptyString) as ->; [|done].
  unfold parkingNameOf. destruct Hshape as [Hno|Hdigit].
  - by rewrite parking_pattern_no_digit.
  - by rewrite parking_pattern_leading_digit.
Qed.

End ParkingName.

(** ** The name of a user waypoint *)

Section UserName.

Context {G : Geo} {MT : MapTypes}.

(** X17. [updateUserName] writes the waypoint id of the entry of the
    leg and nothing else, and does not return when the index of the leg
    lies outside the flight plan. For a leg of the type [USER] without
    valid payload and without procedure text, on a user entry, the name
    written is the identifier [getIdent] returns afterwards, and the
    position of the leg is unchanged. *)
Theorem updateUserName_sets_the_identifier (name : string) (fp : Flightplan)
    (r : RouteMapObject) :
  match at_ (getEntries fp) (index r) with
  | None => updateUserName name fp r = None
  | Some entry =>
      exists fp',
        updateUserName name fp r = Some fp'
        /\ at_ (getEntries fp') (index r) = Some (setWaypointId name entry)
        /\ (forall j, j <> index r ->
              at_ (getEntries fp') j = at_ (getEntries fp) j)
        /\ getDepartureParkingName fp' = getDepartureParkingName fp
        /\ getDeparturePosition fp' = getDeparturePosition fp
        /\ (type r = USER -> getWaypointType entry = USER_ENTRY ->
            firstValid specOrder r = None ->
            leg_displayText (approachLeg r) = [] ->
            getIdent fp' r = Some name
            /\ getPosition fp' r = getPosition fp r)
  end.
Proof.
  unfold updateUserName.
  destruct (at_ (getEntries fp) (index r)) as [entry|] eqn:Hentry; [|done].
  simpl. eexists. split; [done|].
  apply at_in_range in Hentry as Hrange. destruct Hrange as [Hrange _].
  assert (at_ (getEntries (setEntry (index r) (setWaypointId name entry) fp))
            (index r) = Some (setWaypointId name entry)) as Hat
    by (by apply (at_setEntry _ entry)).
  split; [done|]. split.
  { intros j Hj. unfold at_, setEntry. simpl.
    destruct (0 <=? j) eqn:H0; [|done]. apply Z.leb_le in H0.
    apply list_lookup_insert_ne. lia. }
  split; [done|]. split; [done|].
  intros Hkind Huser Hnone Htext.
  unfold firstValid, specOrder in Hnone. simpl in Hnone.
  unfold getIdent, getPosition, curEntry, isRoute, isAnyApproach.
  rewrite Hkind, Htext, Hat, Hentry. simpl.
  destruct (MapAirport_isValid _); [done|].
  destruct (MapVor_isValid _); [done|].
  destruct (MapNdb_isValid _); [done|].
  destruct (MapWaypoint_isValid _); [done|].
  destruct (MapIls_isValid _); [done|].
  destruct (MapRunwayEnd_isValid _); [done|].
  by rewrite Huser.
Qed.

End UserName.

(** * The properties on the small world *)

Import Demo.

(** In the small world a magnetic variation the scans stop at is not zero,
    and the bearings are normalized. *)
Lemma Demo_setIsNonZero : setIsNonZero.
Proof. intros [[]|[]| |[] m e]; vm_compute; congruence. Qed.

Lemma Demo_bearings_normalized (a b : Z) :
  inCourseRange (normalizeCourse (angleDegTo a b)) = true
  /\ inCourseRange (normalizeCourse (angleDegToRhumb a b)) = true.
Proof. simpl. unfold bearing. by destruct (a <=? b). Qed.

(** Of the three candidates the second is returned: it is as near as the
    third and comes first. *)
Lemma findMapObject_nearest_witness :
  candidates <> []
  /\ Forall (fun x : MapWaypoint => properDistance (distanceOf 100 x)) candidates
  /\ exists l1 (nearest : MapWaypoint) l2,
       candidates = l1 ++ nearest :: l2
       /\ findMapObject candidates 100 = (nearest, true)
       /\ Forall (fun y : MapWaypoint =>
                 F32.ltb (distanceOf 100 y) (distanceOf 100 nearest) = false)
            candidates
       /\ Forall (fun y : MapWaypoint =>
                 F32.ltb (distanceOf 100 nearest) (distanceOf 100 y) = true)
            l1.
Proof.
  assert (candidates <> []) as Hne by discriminate.
  assert (Forall (fun x : MapWaypoint => properDistance (distanceOf 100 x)) candidates) as Hp
    by (repeat constructor).
  split; [exact Hne|]. split; [exact Hp|].
  exact (proj2 (proj2 (findMapObject_nearest candidates 100)) Hne Hp).
Defined.

Example findMapObject_candidates :
  findMapObject candidates 100 = (waypointAt 2 "ABC" 2100, true).
Proof. reflexivity. Qed.

(** The nearest waypoint is 20000 metres from the entry. *)
Lemma out_of_tolerance_witness :
  exists s',
    createFromDatabaseByEntry farDatabase 0 None waypointPlan = Some s'
    /\ valid (self s') = false
    /\ type (self s') = INVALID
    /\ flightplan s' = flightplan waypointPlan.
Proof.
  apply (out_of_tolerance_is_invalid_and_not_written_back farDatabase 0 None
           waypointPlan (entryAt INTERSECTION "ABC" "KK" 100) (F32.of_Z 20000)).
  - reflexivity.
  - exact I.
  - reflexivity.
  - reflexivity.
Defined.

(** The claim C2 as it stands fails there: the entry asks for a waypoint,
    its nearest candidate is beyond the tolerance, and the type of the leg
    is not the kind asked for when the function returns. *)
Lemma out_of_tolerance_kind_not_kept :
  exists s' entry d,
    at_ (getEntries (flightplan waypointPlan)) 0 = Some entry
    /\ requestedKind entry = Some WAYPOINT
    /\ chosenDistance farDatabase entry = Some d
    /\ exceedsTolerance d
    /\ createFromDatabaseByEntry farDatabase 0 None waypointPlan = Some s'
    /\ valid (self s') = false
    /\ type (self s') <> WAYPOINT.
Proof.
  assert ((fun s => (valid (self s), type (self s)))
            <$> createFromDatabaseByEntry farDatabase 0 None waypointPlan
          = Some (false, INVALID)) as Hrun by (vm_compute; reflexivity).
  destruct (createFromDatabaseByEntry farDatabase 0 None waypointPlan)
    as [s'|]; [|discriminate].
  injection Hrun as Hv Ht.
  exists s', (entryAt INTERSECTION "ABC" "KK" 100), (F32.of_Z 20000).
  split; [reflexivity|]. split; [reflexivity|].
  split; [vm_compute; reflexivity|]. split; [vm_compute; reflexivity|].
  split; [reflexivity|]. split; [exact Hv|]. rewrite Ht. discriminate.
Qed.

(** A leg whose resolution fails is of the kind Invalid. *)
Lemma valid_false_implies_invalid_kind_witness :
  exists s',
    createFromDatabaseByEntry farDatabase 0 None waypointPlan = Some s'
    /\ valid (self s') = false /\ type (self s') = INVALID.
Proof.
  assert (valid <$> (self <$> createFromDatabaseByEntry farDatabase 0 None
                                waypointPlan) = Some false)
    as Hrun by (vm_compute; reflexivity).
  destruct (createFromDatabaseByEntry farDatabase 0 None waypointPlan)
    as [s'|] eqn:Hs'; [|discriminate].
  injection Hrun as Hv.
  exists s'. split; [reflexivity|]. split; [exact Hv|].
  exact (proj2 (proj2 (valid_false_implies_invalid_kind
                         (flightplan waypointPlan) 0 noAirport [] farDatabase
                         None newLeg waypointPlan)) s' Hs' Hv).
Defined.

(** A route leg after the airport leg: both courses are 90 degrees. *)
Lemma courses_normalized_witness :
  exists r',
    updateDistanceAndCourse (flightplan userPlan) 1 (Some airportLeg)
      (set_type USER newLeg) = Some r'
    /\ inCourseRange (courseTo r') = true
    /\ inCourseRange (courseRhumbTo r') = true.
Proof.
  assert ((fun _ => tt) <$> updateDistanceAndCourse (flightplan userPlan) 1
                              (Some airportLeg) (set_type USER newLeg)
          = Some tt) as Hrun by (vm_compute; reflexivity).
  destruct (updateDistanceAndCourse (flightplan userPlan) 1 (Some airportLeg)
              (set_type USER newLeg)) as [r'|] eqn:Hr'; [|discriminate].
  exists r'. split; [reflexivity|].
  apply (proj1 (courses_normalized_or_precomputed (flightplan userPlan) 1
                  (Some airportLeg) (set_type USER newLeg) r'
                  Demo_bearings_normalized Hr')).
  left. reflexivity.
Defined.

(** The claim C4 as it stands fails on a procedure leg that is not in the
    single-point case: its courses are the 400 degrees of the procedure
    definition, although every bearing is normalized. *)
Lemma precomputed_course_out_of_range :
  (forall c, inCourseRange (normalizeCourse c) = true)
  /\ exists r',
       updateDistanceAndCourse (flightplan userPlan) 1 None procedureLeg = Some r'
       /\ inCourseRange (courseTo r') = false
       /\ inCourseRange (courseRhumbTo r') = false.
Proof.
  split.
  - intros c. simpl. unfold normalize.
    by destruct (inCourseRange c) eqn:Hc.
  - assert ((fun r => (inCourseRange (courseTo r), inCourseRange (courseRhumbTo r)))
              <$> updateDistanceAndCourse (flightplan userPlan) 1 None procedureLeg
            = Some (false, false)) as Hrun by (vm_compute; reflexivity).
    destruct (updateDistanceAndCourse (flightplan userPlan) 1 None procedureLeg)
      as [r'|]; [|discriminate].
    injection Hrun as Hc Hr. by exists r'.
Qed.

(** The route [A(var=5), B(var=0, user), C(var=9)]: B backfills to 7. *)
Lemma magvar_backfill_witness :
  setIsNonZero
  /\ exists backward forward,
       resolvedMagvar backward forward = F32.of_Z 7
       /\ updateInvalidMagvarAt 1 1 route
          = Some (<[1%nat := set_magvar (resolvedMagvar backward forward)
                               (legWithMagvar USER 0)]> route).
Proof.
  split; [exact Demo_setIsNonZero|].
  destruct (proj1 (magvar_backfill 1 1 route (legWithMagvar USER 0)
                     (legWithMagvar USER 0) Demo_setIsNonZero)
              (or_introl eq_refl) eq_refl)
    as (backward & forward & Hb & Hf & Hupd).
  exists backward, forward. split; [|exact Hupd].
  assert (((fun l => magvar <$> l !! 1%nat)
             <$> updateInvalidMagvarAt 1 (Z.of_nat 1) route)
          = Some (Some (F32.of_Z 7))) as Hrun by (vm_compute; reflexivity).
  rewrite Hupd in Hrun. simpl in Hrun. by injection Hrun.
Defined.

Example backfill_examples :
  backfill 1 (F32.of_Z <$> [5; 0; 9]) = Some (F32.of_Z 7)
  /\ backfill 1 (F32.of_Z <$> [0; 0; 9]) = Some (F32.of_Z 9)
  /\ backfill 1 (F32.of_Z <$> [0; 0; 0]) = Some F32.zero.
Proof. by repeat split. Qed.

(** The lookup of the waypoint returns nothing and the leg is new. *)
Lemma failed_resolution_witness :
  exists s',
    createFromDatabaseByEntry emptyDatabase 0 None waypointPlan = Some s'
    /\ type (self s') = INVALID
    /\ valid (self s') = false
    /\ flightplan s' = flightplan waypointPlan
    /\ at_ (getEntries (flightplan s')) 0 = Some (entryAt INTERSECTION "ABC" "KK" 100).
Proof.
  assert (noCandidates emptyDatabase (entryAt INTERSECTION "ABC" "KK" 100))
    as Hnone by reflexivity.
  destruct (failed_resolution_is_invalid_and_leaves_entry emptyDatabase 0 None
              waypointPlan (entryAt INTERSECTION "ABC" "KK" 100)
              eq_refl I (or_introl Hnone))
    as (s' & Hs' & Hfp & Hat & _ & Hkept).
  destruct (Hkept Hnone) as [Hv Ht].
  exists s'. split; [exact Hs'|]. split; [exact Ht|]. split; [exact Hv|].
  split; [exact Hfp|exact Hat].
Defined.

(** The claim C6 as it stands fails for a leg that is used again: the
    lookup of the waypoint returns nothing, and the leg that held a valid
    airport is still valid and of the type [AIRPORT] when the function
    returns. *)
Lemma failed_lookup_keeps_a_valid_leg :
  exists s' entry,
    at_ (getEntries (flightplan reusedLegPlan)) 0 = Some entry
    /\ noCandidates emptyDatabase entry
    /\ createFromDatabaseByEntry emptyDatabase 0 None reusedLegPlan = Some s'
    /\ valid (self s') = true
    /\ type (self s') = AIRPORT
    /\ type (self s') <> INVALID.
Proof.
  assert ((fun s => (valid (self s), type (self s)))
            <$> createFromDatabaseByEntry emptyDatabase 0 None reusedLegPlan
          = Some (true, AIRPORT)) as Hrun by (vm_compute; reflexivity).
  destruct (createFromDatabaseByEntry emptyDatabase 0 None reusedLegPlan)
    as [s'|]; [|discriminate].
  injection Hrun as Hv Ht.
  exists s', (entryAt INTERSECTION "ABC" "KK" 100).
  split; [reflexivity|]. split; [reflexivity|]. split; [reflexivity|].
  split; [exact Hv|]. split; [exact Ht|]. rewrite Ht. discriminate.
Qed.

(** The procedure leg of 400 degrees and 3 nautical miles, first in the
    route. *)
Lemma procedure_leg_witness :
  exists r',
    updateDistanceAndCourse (flightplan userPlan) 2 None procedureLeg = Some r'
    /\ courseRhumbTo r' = courseTo r'
    /\ courseTo r' = F32.of_Z 400
    /\ distanceToRhumb r' = distanceTo r'
    /\ distanceTo r' = F32.of_Z 3
    /\ geometry r' = [0; 10].
Proof.
  apply (procedure_leg_uses_precomputed_values (flightplan userPlan) 2 None
           procedureLeg).
  - reflexivity.
  - left. reflexivity.
Defined.

(** The departure airport of a flight plan with the parking name
    "GATE 12". *)
Lemma parking_name_witness :
  exists s',
    createFromDatabaseByEntry airportDatabase 0 None (airportPlan "GATE 12") = Some s'
    /\ queries s' =
         [QMapObjectByIdent AIRPORT "EDDF" EmptyString;
          QParkingByNameAndNumber 7 "GATE" 12].
Proof.
  exact (proj1 (proj2 (parking_name_parsing_and_routing airportDatabase 0
                         (airportPlan "GATE 12")
                         (entryAt AIRPORT_ENTRY "EDDF" EmptyString 100)
                         (airportAt 7 "EDDF" 120) [] eq_refl eq_refl eq_refl))
           eq_refl).
Defined.

(** The claim C8 as it stands fails: the letters of "GATE 12" do not become
    "GATE_". *)
Lemma parking_name_has_no_underscore :
  Regex.captured1 (PARKING_TO_NAME_AND_NUM "GATE 12") = "GATE "
  /\ parkingNameOf "GATE 12" <> "GATE_".
Proof. split; [reflexivity|]. vm_compute. discriminate. Qed.

(** A leg whose only valid payload is the airport. *)
Lemma accessor_priority_witness :
  firstValid specOrder airportLeg = Some PAirport
  /\ firstValid getIdOrder airportLeg = Some PAirport
  /\ getIdent (flightplan userPlan) airportLeg = Some "EDDF"
  /\ getPosition (flightplan userPlan) airportLeg = Some 120
  /\ getId airportLeg = 7.
Proof.
  destruct (accessor_priority_orders (flightplan userPlan) airportLeg PAirport)
    as (Hident & Hpos & _ & _ & _ & Hid & _).
  split; [reflexivity|]. split; [reflexivity|].
  split; [exact (Hident eq_refl)|].
  split; [apply (Hpos eq_refl eq_refl); discriminate|].
  apply (Hid eq_refl). discriminate.
Defined.

(** The claim C9 as it stands fails on a leg with a valid airport and a
    valid waypoint: the airport comes first in the order of the claim and
    [getIdent] returns its identifier, but [getId] returns the id of the
    waypoint. *)
Lemma getId_prefers_waypoint :
  firstValid specOrder twoPayloadLeg = Some PAirport
  /\ getIdent (flightplan userPlan) twoPayloadLeg
     = Some (payloadIdent twoPayloadLeg PAirport)
  /\ getId twoPayloadLeg = payloadId twoPayloadLeg PWaypoint
  /\ getId twoPayloadLeg <> payloadId twoPayloadLeg PAirport.
Proof.
  split; [vm_compute; reflexivity|]. split; [vm_compute; reflexivity|].
  split; [vm_compute; reflexivity|]. vm_compute. discriminate.
Qed.

(** The user waypoint that follows the airport of the flight plan. *)
Lemma user_entry_witness :
  exists s' entry',
    createFromDatabaseByEntry airportDatabase 1 (Some airportLeg) userPlan = Some s'
    /\ valid (self s') = true /\ type (self s') = USER
    /\ queries s' = []
    /\ at_ (getEntries (flightplan s')) 1 = Some entry'
    /\ getIcaoIdent entry' = EmptyString /\ getIcaoRegion entry' = EmptyString
    /\ getWaypointType entry' = USER_ENTRY
    /\ getWaypointId entry' = "WP1"
    /\ getAirway entry' = "V1"
    /\ entryPosition entry' = 500
    /\ (forall j, j <> 1 ->
          at_ (getEntries (flightplan s')) j
          = at_ (getEntries (flightplan userPlan)) j)
    /\ getDepartureParkingName (flightplan s') = "GATE 12"
    /\ getDeparturePosition (flightplan s') = 0.
Proof.
  apply (user_entry_resolves_without_query airportDatabase 1 (Some airportLeg)
           userPlan (entryAt USER_ENTRY "X" "ED" 500)).
  - reflexivity.
  - reflexivity.
  - intros _. unfold inPlan. simpl. lia.
Defined.

(** ** The other members on the small world *)

(** The user leg after the airport leg: a line from 120 to 500. *)
Lemma route_leg_geometry_witness :
  exists r',
    updateDistanceAndCourse (flightplan userPlan) 1 (Some airportLeg) userLeg
    = Some r'
    /\ getPosition (flightplan userPlan) r' = Some 500
    /\ getGeometry r' = [120; 500].
Proof.
  assert ((fun _ => tt) <$> updateDistanceAndCourse (flightplan userPlan) 1
                              (Some airportLeg) userLeg = Some tt)
    as Hrun by (vm_compute; reflexivity).
  destruct (updateDistanceAndCourse (flightplan userPlan) 1 (Some airportLeg)
              userLeg) as [r'|] eqn:Hr'; [|discriminate].
  destruct (route_leg_geometry_ends_at_its_position (flightplan userPlan) 1
              (Some airportLeg) userLeg r' eq_refl Hr')
    as (pos & Hpos & prevPos & Hprev & Hgeo).
  exists r'. split; [reflexivity|].
  assert (getPosition (flightplan userPlan) r' = Some 500) as Hpos'.
  { rewrite (updateDistanceAndCourse_position _ _ _ _ _ Hr'). reflexivity. }
  rewrite Hpos' in Hpos. injection Hpos as <-.
  assert (getPosition (flightplan userPlan) airportLeg = Some 120) as Hprev'
    by reflexivity.
  rewrite Hprev' in Hprev. injection Hprev as <-.
  split; [exact Hpos'|exact Hgeo].
Defined.

Lemma updateDistanceAndCourse_idempotent_witness :
  exists r',
    updateDistanceAndCourse (flightplan userPlan) 1 (Some airportLeg) userLeg
    = Some r'
    /\ updateDistanceAndCourse (flightplan userPlan) 1 (Some airportLeg) r'
       = Some r'.
Proof.
  assert ((fun _ => tt) <$> updateDistanceAndCourse (flightplan userPlan) 1
                              (Some airportLeg) userLeg = Some tt)
    as Hrun by (vm_compute; reflexivity).
  destruct (updateDistanceAndCourse (flightplan userPlan) 1 (Some airportLeg)
              userLeg) as [r'|] eqn:Hr'; [|discriminate].
  exists r'. split; [reflexivity|].
  exact (updateDistanceAndCourse_idempotent _ _ _ _ _ Hr').
Defined.

(** The procedure leg, read with a flight plan it has no entry in. *)
Lemma procedure_leg_accessors_witness :
  isAnyApproach procedureLeg = true
  /\ getPosition (flightplan unknownPlan) procedureLeg = Some 10
  /\ legAirway (flightplan unknownPlan) procedureLeg = Some EmptyString
  /\ getIdent (flightplan userPlan) procedureLeg
     = getIdent (flightplan unknownPlan) procedureLeg.
Proof.
  destruct (procedure_leg_accessors_ignore_flightplan (flightplan unknownPlan)
              (flightplan userPlan) procedureLeg eq_refl)
    as (Hpos & _ & Hairway & _ & Hident & _).
  split; [reflexivity|]. split; [exact Hpos|]. split; [exact Hairway|].
  exact Hident.
Defined.

Lemma createFromAirport_round_trip_witness :
  MapAirport_isValid (airportAt 7 "EDDF" 120) = true
  /\ exists r',
       createFromAirport (flightplan userPlan) 0 (airportAt 7 "EDDF" 120) None
         newLeg = Some r'
       /\ getIdent (flightplan userPlan) r' = Some "EDDF"
       /\ getPosition (flightplan userPlan) r' = Some 120
       /\ getId r' = 7.
Proof.
  assert (MapAirport_isValid (airportAt 7 "EDDF" 120) = true) as Hvalid
    by reflexivity.
  split; [exact Hvalid|].
  destruct (createFromAirport_round_trip (flightplan userPlan) 0
              (airportAt 7 "EDDF" 120) None newLeg Hvalid I)
    as (r' & Hr' & _ & _ & _ & _ & Hident & _ & Hpos & _ & _ & Hid).
  exists r'. split; [exact Hr'|]. split; [exact Hident|].
  split; [exact Hpos|]. exact (Hid eq_refl eq_refl eq_refl).
Defined.

(** The procedure with the one leg of [procedureLeg]. *)
Lemma createFromApproachLeg_witness :
  exists r',
    createFromApproachLeg (flightplan userPlan) 0 [approachLeg procedureLeg]
      None newLeg = Some r'
    /\ valid r' = true /\ type r' = PROCEDURE 0
    /\ getGeometry r' = [0; 10]
    /\ getPosition (flightplan userPlan) r' = Some 10
    /\ waypoint r' = noWaypoint.
Proof.
  pose proof (createFromApproachLeg_takes_the_definition (flightplan userPlan)
                0 [approachLeg procedureLeg] None newLeg) as Hcreate.
  assert (at_ [approachLeg procedureLeg] 0 = Some (approachLeg procedureLeg))
    as Hat by reflexivity.
  rewrite Hat in Hcreate.
  destruct (Hcreate 0%nat eq_refl I)
    as (r' & Hr' & Hv & Ht & _ & _ & _ & Hgeo & Hpos & Hw & _).
  exists r'. split; [exact Hr'|]. split; [exact Hv|]. split; [exact Ht|].
  split; [exact Hgeo|]. split; [exact Hpos|]. exact Hw.
Defined.

(** The waypoint entry resolved within the tolerance: the entry keeps its
    type, waypoint id and airway. *)
Lemma resolution_touches_one_entry_witness :
  exists s' entry',
    createFromDatabaseByEntry nearDatabase 0 None waypointPlan = Some s'
    /\ at_ (getEntries (flightplan s')) 0 = Some entry'
    /\ getWaypointType entry' = INTERSECTION
    /\ getWaypointId entry' = "WP1"
    /\ getAirway entry' = "V1"
    /\ length (getEntries (flightplan s')) = 1%nat.
Proof.
  assert ((fun _ => tt) <$> createFromDatabaseByEntry nearDatabase 0 None
                              waypointPlan = Some tt)
    as Hrun by (vm_compute; reflexivity).
  destruct (createFromDatabaseByEntry nearDatabase 0 None waypointPlan)
    as [s'|] eqn:Hs'; [|discriminate].
  destruct (resolution_touches_one_entry nearDatabase 0 None waypointPlan s' Hs')
    as (entry & entry' & Hentry & Hentry' & Ht & Hid & Haw & Hlen & _).
  assert (at_ (getEntries (flightplan waypointPlan)) 0
          = Some (entryAt INTERSECTION "ABC" "KK" 100)) as Hat by reflexivity.
  rewrite Hat in Hentry. injection Hentry as <-.
  exists s', entry'. split; [reflexivity|]. split; [exact Hentry'|].
  split; [exact Ht|]. split; [exact Hid|]. split; [exact Haw|]. exact Hlen.
Defined.

Lemma unknown_entry_witness :
  exists s',
    createFromDatabaseByEntry farDatabase 0 None unknownPlan = Some s'
    /\ flightplan s' = flightplan unknownPlan /\ queries s' = []
    /\ valid (self s') = false /\ type (self s') = INVALID.
Proof.
  destruct (unknown_entry_changes_nothing farDatabase 0 None unknownPlan
              (entryAt UNKNOWN "X" EmptyString 5) eq_refl eq_refl I)
    as (s' & Hs' & Hfp & Hq & _ & Hv & Ht).
  exists s'. split; [exact Hs'|]. split; [exact Hfp|]. split; [exact Hq|].
  split; [exact Hv|exact Ht].
Defined.



(** The airport entry resolved for a leg that follows another one. *)
Lemma airport_after_the_first_witness :
  exists s',
    createFromDatabaseByEntry airportDatabase 0 (Some airportLeg)
      (airportPlan "GATE 12") = Some s'
    /\ airport (self s') = airportAt 7 "EDDF" 120
    /\ parking (self s') = noParking /\ start (self s') = noStart
    /\ getDepartureParkingName (flightplan s') = "GATE 12"
    /\ queries s' = [QMapObjectByIdent AIRPORT "EDDF" EmptyString].
Proof.
  destruct (airport_after_the_first_resets_departure airportDatabase 0
              (Some airportLeg) (airportPlan "GATE 12")
              (entryAt AIRPORT_ENTRY "EDDF" EmptyString 100)
              (airportAt 7 "EDDF" 120) [] eq_refl eq_refl eq_refl)
    as (s' & Hs' & _ & _ & Ha & Hp & Hst & Hfp & Hq).
  - intros _. unfold inPlan. simpl. lia.
  - left. discriminate.
  - exists s'. split; [exact Hs'|]. split; [exact Ha|]. split; [exact Hp|].
    split; [exact Hst|]. split; [by rewrite Hfp|exact Hq].
Defined.

(** The parking "GATE 12" of the small database: spot GATE number 12. *)
Lemma departure_lookup_witness :
  exists s',
    createFromDatabaseByEntry airportDatabase 0 None (airportPlan "GATE 12")
    = Some s'
    /\ parking_name (parking (self s')) = "GATE"
    /\ parking_number (parking (self s')) = 12
    /\ getDepartureParkingName (flightplan s') = "GATE 12".
Proof.
  destruct (departure_lookup_outcome airportDatabase 0 (airportPlan "GATE 12")
              (entryAt AIRPORT_ENTRY "EDDF" EmptyString 100)
              (airportAt 7 "EDDF" 120) [] eq_refl eq_refl eq_refl eq_refl)
    as (s' & Hs' & _ & _ & Hout).
  assert (QStr.isEmpty (parkingNameOf
            (QStr.trimmed (getDepartureParkingName
                             (flightplan (airportPlan "GATE 12"))))) = false)
    as Hletters by (vm_compute; reflexivity).
  rewrite Hletters in Hout. destruct Hout as (_ & Hout).
  assert (getParkingByNameAndNumber airportDatabase
            (airport_id (airportAt 7 "EDDF" 120))
            (parkingDatabaseName
               (parkingNameOf
                  (QStr.trimmed
                     (getDepartureParkingName
                        (flightplan (airportPlan "GATE 12"))))))
            (parkingNumberOf
               (QStr.trimmed
                  (getDepartureParkingName (flightplan (airportPlan "GATE 12")))))
          = [ {| parking_id := 1; parking_name := "GATE"; parking_number := 12;
                 parking_position := 0 |} ]) as Hspots by reflexivity.
  rewrite Hspots in Hout. destruct Hout as (Hpark & Hname).
  exists s'. split; [exact Hs'|]. rewrite Hpark, Hname.
  split; [reflexivity|]. split; reflexivity.
Defined.

(** The user leg of the example route: index 7 scans from the last leg. *)
Lemma backfill_index_bounds_witness :
  updateInvalidMagvar 7 route (legWithMagvar USER 0)
  = updateInvalidMagvar 2 route (legWithMagvar USER 0)
  /\ updateInvalidMagvar (-1) route (legWithMagvar USER 0) = None
  /\ updateInvalidMagvar 1 [] (legWithMagvar USER 0) = None.
Proof.
  destruct (backfill_index_bounds 7 route (legWithMagvar USER 0)
              (or_introl eq_refl)) as [Hpast _].
  destruct (backfill_index_bounds (-1) route (legWithMagvar USER 0)
              (or_introl eq_refl)) as [_ Hnegative].
  destruct (backfill_index_bounds 1 [] (legWithMagvar USER 0)
              (or_introl eq_refl)) as [_ Hempty].
  split; [apply Hpast; simpl; lia|].
  split; [apply Hnegative; right; lia|apply Hempty; by left].
Defined.

Lemma backfill_in_route_witness :
  exists routeList',
    updateInvalidMagvarAt 1 1 route = Some routeList'
    /\ updateInvalidMagvarAt 1 1 routeList' = Some routeList'.
Proof.
  assert ((fun _ => tt) <$> updateInvalidMagvarAt 1 1 route = Some tt)
    as Hrun by (vm_compute; reflexivity).
  destruct (updateInvalidMagvarAt 1 1 route) as [routeList'|] eqn:Hr;
    [|discriminate].
  exists routeList'. split; [reflexivity|].
  exact (backfill_in_route_is_stable 1 1 route routeList' Hr).
Defined.

(** "GATE A 12": the letters "GATE A ", the digits "12", no rest. *)
Lemma letters_then_digits_witness :
  exists s',
    createFromDatabaseByEntry airportDatabase 0 None (airportPlan "GATE A 12")
    = Some s'
    /\ queries s' =
         [QMapObjectByIdent AIRPORT "EDDF" EmptyString;
          QParkingByNameAndNumber 7 "GATE_A" 12].
Proof.
  exact (letters_then_digits_is_a_parking airportDatabase 0
           (airportPlan "GATE A 12")
           (entryAt AIRPORT_ENTRY "EDDF" EmptyString 100)
           (airportAt 7 "EDDF" 120) [] "GATE A " "12" EmptyString
           eq_refl eq_refl eq_refl eq_refl eq_refl eq_refl eq_refl eq_refl
           eq_refl).
Defined.

(** "RW": a name without digit. *)
Lemma name_without_letters_witness :
  exists s',
    createFromDatabaseByEntry airportDatabase 0 None (airportPlan "RW") = Some s'
    /\ queries s' =
         [QMapObjectByIdent AIRPORT "EDDF" EmptyString;
          QStartByNameAndPos 7 "RW" 0].
Proof.
  exact (name_without_letters_is_a_start_position airportDatabase 0
           (airportPlan "RW") (entryAt AIRPORT_ENTRY "EDDF" EmptyString 100)
           (airportAt 7 "EDDF" 120) [] eq_refl eq_refl eq_refl eq_refl
           (or_introl eq_refl)).
Defined.

(** The user entry of [userPlan] renamed to "HOME". *)
Lemma updateUserName_witness :
  exists fp',
    updateUserName "HOME" (flightplan userPlan) userLeg = Some fp'
    /\ getIdent fp' userLeg = Some "HOME"
    /\ getPosition fp' userLeg = Some 500.
Proof.
  pose proof (updateUserName_sets_the_identifier "HOME" (flightplan userPlan)
                userLeg) as Hname.
  assert (at_ (getEntries (flightplan userPlan)) (index userLeg)
          = Some (entryAt USER_ENTRY "X" "ED" 500)) as Hat by reflexivity.
  rewrite Hat in Hname.
  destruct Hname as (fp' & Hfp' & _ & _ & _ & _ & Hident).
  destruct (Hident eq_refl eq_refl eq_refl eq_refl) as [Hid Hpos].
  exists fp'. split; [exact Hfp'|]. split; [exact Hid|].
  rewrite Hpos. reflexivity.
Defined.
